(** * ollamaclient: the streaming pull handler

    A shallow embedding of the two [Pull] implementations of the repository
    and of the progress-bar renderer, with the properties of the
    specification stated and settled against them.

    - [src/pull.go]: [max], [generateColorizedProgressBar], [Config.Pull]
      (the progress-bar variant);
    - [src/unnamed/part_000]: [Config], the constructors and the older,
      strict [Config.Pull] (module [Historical]); [GetOutput] (module
      [Generate]); [List], [SizeOf], [Has], [HasModel] and [PullIfNeeded]
      (module [Tags]).

    Modelling conventions.
    - Go [string] is a byte sequence: [string] of the Standard Library.
    - Go [int] and [int64] are 64-bit: [Z] with the wrap-around written out
      in [wrap64].
    - [float64] is modelled by exact rationals [Q]; the conversion [int(f)]
      truncates toward zero.  The two agree wherever the floating-point
      operations are exact, and every concrete input evaluated below is
      chosen so (halves, integers).
    - a panic of the Go runtime is [None] in [option], and [Panicked] as
      the outcome of [Pull].
    - the outside world of a call (environment, HTTP response, decoder,
      clock) is a [World] value; what the call does to it is an [event]
      trace. *)

From Stdlib Require Import ZArith QArith String Ascii List Lia Lqa Bool.
From stdpp Require Import base option list gmap strings.
Import ListNotations.

Local Open Scope Z_scope.

(** ** Go primitives *)

(** Two's complement wrap-around of a 64-bit signed integer. *)
Definition wrap64 (z : Z) : Z := (z + 2 ^ 63) mod 2 ^ 64 - 2 ^ 63.


Definition int_sub (a b : Z) : Z := wrap64 (a - b).
Definition int_mul (a b : Z) : Z := wrap64 (a * b).
(** Go's [/] on integers truncates toward zero. *)
Definition int_quot (a b : Z) : Z := wrap64 (Z.quot a b).

(** [float64(n)] and [int(f)]. *)
Definition float64_of_int (n : Z) : Q := inject_Z n.
Definition int_of_float64 (f : Q) : Z := Z.quot (Qnum f) (Z.pos (Qden f)).

(** [len(s)]. *)
Definition len (s : string) : Z := Z.of_nat (String.length s).

Fixpoint repeat_string (s : string) (n : nat) : string :=
  match n with
  | O => ""
  | S n' => s +:+ repeat_string s n'
  end.

(** [strings.Repeat]: panics on a negative count. *)
Definition Repeat (s : string) (count : Z) : option string :=
  if count <? 0 then None else Some (repeat_string s (Z.to_nat count)).

(** [strings.HasPrefix(s, prefix)]. *)
Definition HasPrefix (s prefix : string) : bool := String.prefix prefix s.

(** [strings.TrimPrefix(s, prefix)]. *)
Definition TrimPrefix (s prefix : string) : string :=
  if HasPrefix s prefix
  then substring (String.length prefix) (String.length s - String.length prefix) s
  else s.

Definition ESC : string := String (ascii_of_nat 27) "".
Definition CR : string := String (ascii_of_nat 13) "".
Definition LF : string := String (ascii_of_nat 10) "".

(** [time.Duration]: nanoseconds. *)
Definition Duration : Type := Z.
Definition Second : Duration := 1000000000.
Definition Hour : Duration := 3600 * Second.

(** ** src/pull.go: package-level declarations *)

Definition defaultPullTimeout : Duration := 48 * Hour.

Definition spinner : list string := ["-"; "\"; "|"; "/"].

(** The package-level [colors] map, as initialised. *)
Definition colors : gmap string string :=
  list_to_map
    [ ("blue", ESC +:+ "[94m");
      ("cyan", ESC +:+ "[96m");
      ("gray", ESC +:+ "[37m");
      ("magenta", ESC +:+ "[95m");
      ("red", ESC +:+ "[91m");
      ("white", ESC +:+ "[97m");
      ("reset", ESC +:+ "[0m") ].

(** [m[k]] on a [map[string]string]: the empty string when [k] is absent. *)
Definition index_map (m : gmap string string) (k : string) : string :=
  default "" (m !! k).

(** [for k := range colors { colors[k] = "" }]. *)
Definition skip_colors (m : gmap string string) : gmap string string :=
  (fun _ => "") <$> m.

Definition max (a b : Z) : Z := if b <? a then a else b.

(** [generateColorizedProgressBar], lines 49-60.  [None] is the panic of
    [strings.Repeat] on a negative count. *)
Definition generateColorizedProgressBar
    (colors : gmap string string) (progress : Q) (width : Z) : option string :=
  let progressInt :=
    int_of_float64 (progress / 100 * float64_of_int width)%Q in
  r1 ← Repeat "=" progressInt;
  let bar := index_map colors "blue" +:+ r1 in
  bar ← (if int_quot width 3 <? progressInt
         then r2 ← Repeat "=" (max 0 (int_sub progressInt (int_quot width 3)));
              Some (bar +:+ (index_map colors "magenta" +:+ r2))
         else Some bar);
  bar ← (if int_quot (int_mul 2 width) 3 <? progressInt
         then r3 ← Repeat "="
                     (max 0 (int_sub progressInt (int_quot (int_mul 2 width) 3)));
              Some (bar +:+ (index_map colors "cyan" +:+ r3))
         else Some bar);
  r4 ← Repeat " " (int_sub width (max progressInt width));
  Some (bar +:+ ((index_map colors "white" +:+ r4) +:+ index_map colors "reset")).

(** The number of fill characters asked of the first segment (the
    [progressInt] of the renderer). *)
Definition progressInt (progress : Q) (width : Z) : Z :=
  int_of_float64 (progress / 100 * float64_of_int width)%Q.

(** ** Shared data: configuration, errors, the outside world *)

(** [Config] (src/unnamed/part_000, lines 30-35). *)
Record Config : Type := mkConfig {
  API : string;
  Model : string;
  Verbose : bool;
  PullTimeout : Duration
}.

(** [NewCustom] (part_000, lines 139-146). *)
Definition NewCustom (model addr : string) (verbose : bool)
    (pullTimeout : Duration) : Config :=
  mkConfig addr model verbose pullTimeout.

(** A field value of a struct handed to [json.Marshal]. *)
Inductive json_value : Type :=
| JString (s : string)
| JBool (b : bool).

(** An argument of a [fmt] verb.  [AJSON] is the output of [json.Marshal]
    on a struct value, given by its fields in order; [AHuman n] is
    [humanize.Bytes(n)]: both strings come from libraries outside the
    repository and are kept symbolic. *)
Inductive arg : Type :=
| AStr (s : string)
| AFloat (f : Q)
| ADuration (d : Duration)
| AHuman (n : Z)
| AJSON (fields : list (string * json_value)).

(** A Go [error] value: one handed over by [net/http] or [encoding/json]
    ([io.EOF] included), or one built by [fmt.Errorf]. *)
Inductive error : Type :=
| LibError (msg : string)
| Errorf (format : string) (args : list arg).

Definition EOF : error := LibError "EOF".

(** What a call of [Pull] ends with. *)
Inductive outcome : Type :=
| Returned (text : string) (err : option error)
| Panicked.

Section World.

(** The record type decoded from the stream differs between the two
    variants of [Pull]. *)
Context {Resp : Type}.

(** What one [decoder.Decode(&resp)] yields. *)
Inductive DecodeResult : Type :=
| Decoded (resp : Resp)
| DecodeFails (e : error).

(** What the POST yields: an error (no response), or a response with its
    status code and a body, seen through the decoder as the results of the
    successive [Decode] calls; past the last one [Decode] yields [io.EOF]. *)
Inductive PostResult : Type :=
| PostError (e : error)
| PostResponse (StatusCode : Z) (Body : list DecodeResult).

Record World : Type := mkWorld {
  env_NO_COLOR : bool;
  http_Post : PostResult;
  (** the value of the [k]-th evaluation of [time.Since(start)] *)
  time_Since : nat -> Duration
}.

(** What a call does, in order. *)
Inductive event : Type :=
| EvPrint (format : string) (args : list arg)
| EvPost (url : string) (reqBytes : arg)
| EvDecode (res : DecodeResult)
| EvSleep (d : Duration)
| EvSince (d : Duration)
| EvClose.

(** One loop iteration either falls through to the next one or leaves the
    function. *)
Inductive step (A : Type) : Type :=
| Continue (a : A)
| Stop (o : outcome).
Global Arguments Continue {A} a.
Global Arguments Stop {A} o.

Definition M (A : Type) : Type := (list event * step A)%type.

Definition ret {A} (a : A) : M A := ([], Continue a).

Definition bind {A B} (m : M A) (f : A -> M B) : M B :=
  match m with
  | (tr, Continue a) => let '(tr', r) := f a in (tr ++ tr', r)
  | (tr, Stop o) => (tr, Stop o)
  end.

Definition emit (e : event) : M unit := ([e], Continue tt).

Definition stop {A} (o : outcome) : M A := ([], Stop o).

Definition when (b : bool) (m : M unit) : M unit := if b then m else ret tt.

(** A value whose computation may panic. *)
Definition orPanic {A} (x : option A) : M A :=
  match x with
  | Some a => ret a
  | None => stop Panicked
  end.

End World.

Global Arguments DecodeResult : clear implicits.
Global Arguments PostResult : clear implicits.
Global Arguments World : clear implicits.
Global Arguments event : clear implicits.
Global Arguments M : clear implicits.

Notation "x <- m ;; k" := (bind m (fun x => k))
  (at level 100, m at next level, right associativity, only parsing).
Notation "m ;; k" := (bind m (fun _ => k))
  (at level 100, right associativity, only parsing).

(** [s[i]] on a slice of strings: panics out of range. *)
Definition index_slice (s : list string) (i : Z) : option string :=
  if (i <? 0) || (Z.of_nat (length s) <=? i) then None
  else nth_error s (Z.to_nat i).

(** [verbose := oc.Verbose; if len(optionalVerbose) > 0 && optionalVerbose[0]
    { verbose = true }]. *)
Definition verbose_of (oc : Config) (optionalVerbose : list bool) : bool :=
  match optionalVerbose with
  | true :: _ => true
  | _ => Verbose oc
  end.

(** ** src/pull.go: [Pull] *)

(** [PullRequest] (pull.go, lines 17-20) and what [json.Marshal] is given. *)
Record PullRequest : Type := mkPullRequest {
  Name : string;
  Stream : bool
}.

Definition Marshal (reqBody : PullRequest) : arg :=
  AJSON [("Name", JString (Name reqBody)); ("Stream", JBool (Stream reqBody))].

(** [PullResponse] (pull.go, lines 22-27). *)
Record PullResponse : Type := mkPullResponse {
  Digest : string;
  Completed : Z;
  Total : Z;
  Status : string
}.

(** The locals of [Pull] that live across iterations; [sinceCalls] counts
    the evaluations of [time.Since] so far and indexes the clock of the
    world. *)
Record loopState : Type := mkLoopState {
  sb : string;
  spinnerPosition : Z;
  lastDigest : string;
  sinceCalls : nat
}.

(** The condition of line 112. *)
Definition phaseBoundary (lastDigest digest : string) : bool :=
  negb (String.eqb lastDigest "") && negb (String.eqb lastDigest digest).

(** Lines 106-109. *)
Definition shortDigest_of (digest : string) : string :=
  let shortDigest := TrimPrefix digest "sha256:" in
  if 8 <? len shortDigest then substring 0 8 shortDigest else shortDigest.

(** Lines 111-116: the line break that starts a new part. *)
Definition new_part (verbose : bool) (lastDigest digest : string)
    : M PullResponse unit :=
  when (phaseBoundary lastDigest digest)
    (when verbose (emit (EvPrint LF []))).

(** Lines 119-133: the display of one record; it yields the spinner
    position for the next iteration.  [spinnerPosition++] runs at most once
    per decoded record, so the counter cannot reach 2^63 in a run: the
    increment is written without wrap-around. *)
Definition display (oc : Config) (verbose : bool)
    (colors : gmap string string) (spinnerPosition : Z)
    (resp : PullResponse) : M PullResponse Z :=
  let shortDigest := shortDigest_of (Digest resp) in
  if Total resp =? 0 then
    if verbose then
      s <- orPanic (index_slice spinner
                      (Z.rem spinnerPosition (Z.of_nat (length spinner)))) ;;
      emit (EvPrint (CR +:+ "%sPulling manifest... %s%s")
              [AStr (index_map colors "white"); AStr s;
               AStr (index_map colors "reset")]) ;;
      ret (spinnerPosition + 1)
    else ret spinnerPosition
  else
    let progress :=
      (float64_of_int (Completed resp) / float64_of_int (Total resp) * 100)%Q in
    progressBar <- orPanic (generateColorizedProgressBar colors progress 30) ;;
    let displaySizeCompleted := AHuman (Completed resp mod 2 ^ 64) in
    let displaySizeTotal := AHuman (Total resp mod 2 ^ 64) in
    when verbose
      (emit (EvPrint (CR +:+ "%s%s - %s [%s] %.2f%% - %s/%s %s")
               [AStr (index_map colors "white"); AStr (Model oc);
                AStr shortDigest; AStr progressBar; AFloat progress;
                displaySizeCompleted; displaySizeTotal;
                AStr (index_map colors "reset")])) ;;
    ret spinnerPosition.

(** Lines 135-144: the success check, then the timeout check. *)
Definition finish (oc : Config) (verbose : bool) (since : nat -> Duration)
    (st : loopState) (resp : PullResponse) (spinnerPosition : Z)
    : M PullResponse loopState :=
  if String.eqb (Status resp) "success" then
    when verbose
      (emit (EvPrint (CR +:+ "%s - Download complete!" +:+ ESC +:+ "[K" +:+ LF)
               [AStr (Model oc)])) ;;
    stop (Returned (sb st) None)
  else
    let elapsed := since (sinceCalls st) in
    emit (EvSince elapsed) ;;
    if defaultPullTimeout <? elapsed then
      stop (Returned (sb st)
              (Some (Errorf "downloading %s timed out after %v"
                       [AStr (Model oc); ADuration defaultPullTimeout])))
    else
      ret (mkLoopState (sb st) spinnerPosition (Digest resp)
             (S (sinceCalls st))).

(** The body of the [for] loop once a record is decoded, lines 106-144;
    [lastDigest = resp.Digest] of line 117 is the third field of the state
    handed on by [finish]. *)
Definition iteration (oc : Config) (verbose : bool)
    (colors : gmap string string) (since : nat -> Duration)
    (st : loopState) (resp : PullResponse) : M PullResponse loopState :=
  new_part verbose (lastDigest st) (Digest resp) ;;
  spinnerPosition <- display oc verbose colors (spinnerPosition st) resp ;;
  finish oc verbose since st resp spinnerPosition.

(** The [for] loop, lines 99-145, over what the decoder has left to yield;
    [since k] is the value of the [k]-th [time.Since(downloadStarted)]. *)
Fixpoint pull_loop (oc : Config) (verbose : bool)
    (colors : gmap string string) (since : nat -> Duration)
    (st : loopState) (body : list (DecodeResult PullResponse))
    : list (event PullResponse) * outcome :=
  match body with
  | [] => ([EvDecode (DecodeFails EOF)], Returned (sb st) (Some EOF))
  | DecodeFails e :: _ =>
      ([EvDecode (DecodeFails e)], Returned (sb st) (Some e))
  | Decoded resp :: rest =>
      match iteration oc verbose colors since st resp with
      | (tr, Stop o) => (EvDecode (Decoded resp) :: tr, o)
      | (tr, Continue st') =>
          let '(tr', o) := pull_loop oc verbose colors since st' rest in
          (EvDecode (Decoded resp) :: tr ++ tr', o)
      end
  end.

(** [Pull], lines 62-148.  [json.Marshal] cannot fail on a [PullRequest]
    (a string and a bool), so its error branch is not represented.  The
    deferred [resp.Body.Close()] runs on every way out once the POST has
    answered. *)
Definition Pull (oc : Config) (optionalVerbose : list bool)
    (w : World PullResponse) : list (event PullResponse) * outcome :=
  let colors := if env_NO_COLOR w then skip_colors colors else colors in
  let verbose := verbose_of oc optionalVerbose in
  let reqBody := mkPullRequest (Model oc) true in
  let reqBytes := Marshal reqBody in
  let sending : list (event PullResponse) :=
    if verbose
    then [EvPrint ("Sending request to %s/api/pull: %s" +:+ LF)
            [AStr (API oc); reqBytes]]
    else [] in
  let post := EvPost (API oc +:+ "/api/pull") reqBytes in
  match http_Post w with
  | PostError err => (sending ++ [post], Returned "" (Some err))
  | PostResponse _ body =>
      let '(tr, o) :=
        pull_loop oc verbose colors (time_Since w) (mkLoopState "" 0 "" 0)
          body in
      (sending ++ post :: tr ++ [EvClose], o)
  end.

(** ** src/unnamed/part_000: the older, strict [Pull] *)

Module Historical.

(** [PullRequest] (part_000, lines 72-76); [Insecure] is tagged
    [omitempty]. *)
Record PullRequest : Type := mkPullRequest {
  Name : string;
  Insecure : bool;
  Stream : bool
}.

Definition Marshal (reqBody : PullRequest) : arg :=
  AJSON ([("name", JString (Name reqBody))]
         ++ (if Insecure reqBody then [("insecure", JBool true)] else [])
         ++ (if Stream reqBody then [("stream", JBool true)] else [])).

(** [PullResponse] (part_000, lines 79-83). *)
Record PullResponse : Type := mkPullResponse {
  Status : string;
  Digest : string;
  Total : Z
}.

Record loopState : Type := mkLoopState {
  sb : string;
  gotUnusualStatus : bool;
  sinceCalls : nat
}.

(** What follows the loop, lines 282-285: where a [break] lands. *)
Definition after_loop (verbose : bool) (sb : string)
    : list (event PullResponse) * outcome :=
  ((if verbose then [EvPrint (" OK" +:+ LF) []] else []), Returned sb None).

(** [break]: leave the loop for the code after it. *)
Definition break_to {A} (after : list (event PullResponse) * outcome)
    : M PullResponse A :=
  (fst after, Stop (snd after)).

(** The body of the [for] loop once a record is decoded, lines 260-280.
    The assignment [gotUnusualStatus = true] of line 269 is followed by the
    [return] of line 271 on every path, so no later iteration reads it. *)
Definition iteration (oc : Config) (verbose : bool) (since : nat -> Duration)
    (st : loopState) (pullResp : PullResponse) : M PullResponse loopState :=
  let sb := sb st +:+ Status pullResp in
  if negb (HasPrefix (Status pullResp) "downloading ")
     && negb (HasPrefix (Status pullResp) "pulling ")
  then
    if HasPrefix (Status pullResp) "verifying "
    then break_to (after_loop verbose sb)
    else
      when verbose
        (when (negb (gotUnusualStatus st)) (emit (EvPrint LF [])) ;;
         emit (EvPrint ("%v" +:+ LF) [AStr (Status pullResp)])) ;;
      stop (Returned ""
              (Some (Errorf "recevied status when downloading: %s"
                       [AStr (Status pullResp)])))
  else
    when (verbose && negb (gotUnusualStatus st)) (emit (EvPrint "." [])) ;;
    emit (EvSleep (1 * Second)) ;;
    let elapsed := since (sinceCalls st) in
    emit (EvSince elapsed) ;;
    if PullTimeout oc <? elapsed then
      stop (Returned sb
              (Some (Errorf "pull timed out after %v"
                       [ADuration (PullTimeout oc)])))
    else
      ret (mkLoopState sb (gotUnusualStatus st) (S (sinceCalls st))).

(** The [for] loop, lines 255-281, followed by lines 282-285 on [break];
    [since k] is the value of the [k]-th [time.Since(start)]. *)
Fixpoint pull_loop (oc : Config) (verbose : bool) (since : nat -> Duration)
    (st : loopState) (body : list (DecodeResult PullResponse))
    : list (event PullResponse) * outcome :=
  match body with
  | [] =>
      let '(tr, o) := after_loop verbose (sb st) in
      (EvDecode (DecodeFails EOF) :: tr, o)
  | DecodeFails e :: _ =>
      let '(tr, o) := after_loop verbose (sb st) in
      (EvDecode (DecodeFails e) :: tr, o)
  | Decoded pullResp :: rest =>
      match iteration oc verbose since st pullResp with
      | (tr, Stop o) => (EvDecode (Decoded pullResp) :: tr, o)
      | (tr, Continue st') =>
          let '(tr', o) := pull_loop oc verbose since st' rest in
          (EvDecode (Decoded pullResp) :: tr ++ tr', o)
      end
  end.

(** [Pull], lines 224-286. *)
Definition Pull (oc : Config) (optionalVerbose : list bool)
    (w : World PullResponse) : list (event PullResponse) * outcome :=
  let reqBody := mkPullRequest (Model oc) false true in
  let reqBytes := Marshal reqBody in
  let verbose := verbose_of oc optionalVerbose in
  let sending : list (event PullResponse) :=
    if verbose
    then [EvPrint ("Sending request to %s/api/pull: %s" +:+ LF)
            [AStr (API oc); reqBytes]]
    else [] in
  let post := EvPost (API oc +:+ "/api/pull") reqBytes in
  match http_Post w with
  | PostError err => (sending ++ [post], Returned "" (Some err))
  | PostResponse _ body =>
      let downloading : list (event PullResponse) :=
        if verbose
        then [EvPrint "Downloading and/or updating %s..." [AStr (Model oc)]]
        else [] in
      let '(tr, o) :=
        pull_loop oc verbose (time_Since w) (mkLoopState "" false 0) body in
      (sending ++ post :: downloading ++ tr ++ [EvClose], o)
  end.

End Historical.

(** ** Notions used in the statements *)

Section Events.
Context {Resp : Type}.

Definition is_print (e : event Resp) : bool :=
  match e with EvPrint _ _ => true | _ => false end.

(** A read of the stream or of the clock. *)
Definition is_read (e : event Resp) : bool :=
  match e with EvDecode _ | EvSince _ => true | _ => false end.

Definition is_decode (e : event Resp) : bool :=
  match e with EvDecode _ => true | _ => false end.

(** [fmt.Println()]. *)
Definition is_line_break (e : event Resp) : bool :=
  match e with
  | EvPrint format [] => String.eqb format LF
  | _ => false
  end.

End Events.

(** The progress of a record, as line 125 computes it. *)
Definition progress_of (resp : PullResponse) : Q :=
  (float64_of_int (Completed resp) / float64_of_int (Total resp) * 100)%Q.

(** Whether the display of a record goes through: the bar is rendered for
    every record with a non-zero total, verbose or not. *)
Definition renders (cs : gmap string string) (resp : PullResponse) : bool :=
  (Total resp =? 0)
  || bool_decide (is_Some (generateColorizedProgressBar cs (progress_of resp) 30)).

(** In a trace, the decoding of a record whose status is "success" is
    followed by no read of the stream or of the clock. *)
Fixpoint quiet_after_success (tr : list (event PullResponse)) : Prop :=
  match tr with
  | [] => True
  | e :: tr' =>
      (forall resp, e = EvDecode (Decoded resp) -> Status resp = "success" ->
                    Forall (fun e' => is_read e' = false) tr')
      /\ quiet_after_success tr'
  end.

(** The content of the builder of the strict [Pull] once
    [sb.WriteString(pullResp.Status)] has run for each of [records]. *)
Definition written (sb : string) (records : list Historical.PullResponse)
    : string :=
  fold_left (fun sb r => sb +:+ Historical.Status r) records sb.

(** The phase boundaries the loop of pull.go detects over the digests of
    successive records: the test of line 112 against the last digest, which
    line 117 then replaces by the current one. *)
Fixpoint phase_boundaries (lastDigest : string) (digests : list string)
    : list bool :=
  match digests with
  | [] => []
  | digest :: rest =>
      phaseBoundary lastDigest digest :: phase_boundaries digest rest
  end.

(** ** Sample inputs *)

(** A configuration whose pull timeout is one hour. *)
Definition sample_oc : Config :=
  NewCustom "llama2" "http://localhost:11434" false (1 * Hour).

Definition manifest_record : PullResponse :=
  mkPullResponse "" 0 0 "pulling manifest".

Definition layer_record : PullResponse :=
  mkPullResponse "sha256:8934d96d3f08" 50 100 "pulling 8934d96d3f08".

Definition success_record : PullResponse :=
  mkPullResponse "sha256:8934d96d3f08" 100 100 "success".

(** A stream that ends in a success record with completed = total = 100;
    the clock stands still. *)
Definition success_world : World PullResponse :=
  mkWorld false
    (PostResponse 200
       [Decoded manifest_record; Decoded layer_record; Decoded success_record])
    (fun _ => 0).

(** A stream whose third [Decode] fails. *)
Definition broken_world : World PullResponse :=
  mkWorld false
    (PostResponse 200
       [Decoded manifest_record; Decoded layer_record;
        DecodeFails (LibError "invalid character 'x' looking for beginning of value")])
    (fun _ => 0).

(** A session that is two hours old at every check. *)
Definition late_world : World PullResponse :=
  mkWorld false
    (PostResponse 200 [Decoded manifest_record; Decoded success_record])
    (fun _ => 2 * Hour).

(** A record that reports more bytes completed than the total. *)
Definition overfull_record : PullResponse :=
  mkPullResponse "sha256:8934d96d3f08" 200 100 "pulling 8934d96d3f08".

Definition overfull_world : World PullResponse :=
  mkWorld false (PostResponse 200 [Decoded overfull_record]) (fun _ => 0).

(** A 404 answer whose body is one JSON object without any of the fields
    of [PullResponse]: it decodes to the zero record. *)
Definition not_found_world : World PullResponse :=
  mkWorld false (PostResponse 404 [Decoded (mkPullResponse "" 0 0 "")])
    (fun _ => 0).

Definition refused_world : World PullResponse :=
  mkWorld false (PostError (LibError "connection refused")) (fun _ => 0).

(** Four records over two digests. *)
Definition two_layers_world : World PullResponse :=
  mkWorld true
    (PostResponse 200
       [Decoded (mkPullResponse "sha256:D1" 1 2 "pulling D1");
        Decoded (mkPullResponse "sha256:D1" 2 2 "pulling D1");
        Decoded (mkPullResponse "sha256:D2" 1 2 "pulling D2");
        Decoded (mkPullResponse "sha256:D2" 2 2 "pulling D2")])
    (fun _ => 0).

(** A stream for the strict [Pull] that reaches the status "success". *)
Definition strict_world : World Historical.PullResponse :=
  mkWorld false
    (PostResponse 200
       [Decoded (Historical.mkPullResponse "pulling manifest" "" 0);
        Decoded (Historical.mkPullResponse "downloading 8934d96d3f08"
                   "sha256:8934d96d3f08" 100);
        Decoded (Historical.mkPullResponse "success" "" 0)])
    (fun _ => 0).

(** ** Further notions: records as the loop of pull.go meets them *)


(** A record whose byte counts are in order: no total yet, or
    0 <= completed <= total. *)
Definition in_order (resp : PullResponse) : bool :=
  (Total resp =? 0)
  || ((0 <=? Completed resp) && (Completed resp <=? Total resp)).

(** The decoding of a success record. *)
Definition is_success_decode (e : event PullResponse) : bool :=
  match e with
  | EvDecode (Decoded resp) => String.eqb (Status resp) "success"
  | _ => false
  end.

(** ** src/unnamed/part_000: [GetOutput] *)

Module Generate.

(** [GenerateRequest] (part_000, lines 38-41); its field [Model] is
    [RequestModel] here, [Model] being the field of [Config]. *)
Record GenerateRequest : Type := mkGenerateRequest {
  RequestModel : string;
  Prompt : string
}.

Definition Marshal (reqBody : GenerateRequest) : arg :=
  AJSON [("model", JString (RequestModel reqBody));
         ("prompt", JString (Prompt reqBody))].

(** [GenerateResponse] (part_000, lines 44-58); its field [Model] is
    [ResponseModel] here. *)
Record GenerateResponse : Type := mkGenerateResponse {
  ResponseModel : string;
  CreatedAt : string;
  Response : string;
  Done : bool;
  Context : list Z;
  TotalDuration : Z;
  LoadDuration : Z;
  SampleCount : Z;
  SampleDuration : Z;
  PromptEvalCount : Z;
  PromptEvalDuration : Z;
  EvalCount : Z;
  EvalDuration : Z
}.

(** The [for] loop of [GetOutput], lines 169-178: it yields the content of
    the builder when it is left. *)
Fixpoint generate_loop (sb : string)
    (body : list (DecodeResult GenerateResponse))
    : list (event GenerateResponse) * string :=
  match body with
  | [] => ([EvDecode (DecodeFails EOF)], sb)
  | DecodeFails e :: _ => ([EvDecode (DecodeFails e)], sb)
  | Decoded genResp :: rest =>
      let sb := sb +:+ Response genResp in
      if Done genResp then ([EvDecode (Decoded genResp)], sb)
      else
        let '(tr, out) := generate_loop sb rest in
        (EvDecode (Decoded genResp) :: tr, out)
  end.

Section GetOutput.

(** [strings.TrimSpace], of the Go standard library. *)
Variable TrimSpace : string -> string.

(** [GetOutput], lines 149-183.  [json.Marshal] cannot fail on a
    [GenerateRequest] (two strings). *)
Definition GetOutput (oc : Config) (prompt : string)
    (optionalTrimSpace : list bool) (w : World GenerateResponse)
    : list (event GenerateResponse) * (string * option error) :=
  let reqBody := mkGenerateRequest (Model oc) prompt in
  let reqBytes := Marshal reqBody in
  let sending : list (event GenerateResponse) :=
    if Verbose oc
    then [EvPrint ("Sending request to %s/api/generate: %s" +:+ LF)
            [AStr (API oc); reqBytes]]
    else [] in
  let post := EvPost (API oc +:+ "/api/generate") reqBytes in
  match http_Post w with
  | PostError err => (sending ++ [post], ("", Some err))
  | PostResponse _ body =>
      let '(tr, out) := generate_loop "" body in
      let out :=
        match optionalTrimSpace with
        | true :: _ => TrimSpace out
        | _ => out
        end in
      (sending ++ post :: tr ++ [EvClose], (out, None))
  end.

End GetOutput.

End Generate.

(** ** src/unnamed/part_000: [List], [SizeOf], [Has], [HasModel],
    [PullIfNeeded] *)

(** [strings.Contains(s, substr)]. *)
Fixpoint Contains (s substr : string) : bool :=
  String.prefix substr s
  || match s with
     | EmptyString => false
     | String _ s' => Contains s' substr
     end.

(** [errors.New(text)]: an error that carries its text. *)
Definition errors_New (text : string) : error := LibError text.

(** How a call that may panic ends. *)
Inductive call_end (A : Type) : Type :=
| Returns (a : A)
| Panics.
Global Arguments Returns {A} a.
Global Arguments Panics {A}.

Module Tags.

(** [time.Time], as an instant in nanoseconds. *)
Definition Time : Type := Z.

(** The struct [Model] (part_000, lines 86-91), [ModelInfo] here, [Model]
    being the field of [Config]. *)
Record ModelInfo : Type := mkModelInfo {
  Name : string;
  Modified : Time;
  Size : Z;
  Digest : string
}.

(** [ListResponse] (part_000, lines 94-96). *)
Record ListResponse : Type := mkListResponse {
  Models : list ModelInfo
}.

(** What [http.Get] yields: an error, or an answer whose body the single
    [Decode] of [List] turns into a [ListResponse] or fails on. *)
Inductive GetResult : Type :=
| GetError (e : error)
| GetResponse (StatusCode : Z) (decoded : DecodeResult ListResponse).

(** What [List] and its callers do, in order.  [EvPrintError prefix e] is
    [fmt.Println(prefix + e.Error())]. *)
Inductive tags_event : Type :=
| EvPrintf (format : string) (args : list arg)
| EvGet (url : string)
| EvDecodeList (res : DecodeResult ListResponse)
| EvPrintError (prefix : string) (e : error)
| EvCloseBody.

(** The [for] loop of [List], lines 306-310. *)
Fixpoint collect (models : list ModelInfo) (names : list string)
    (modifiedMap : gmap string Time) (sizeMap : gmap string Z)
    : list string * gmap string Time * gmap string Z :=
  match models with
  | [] => (names, modifiedMap, sizeMap)
  | model :: rest =>
      collect rest (names ++ [Name model])
        (<[Name model := Modified model]> modifiedMap)
        (<[Name model := Size model]> sizeMap)
  end.

(** [List], lines 289-312.  On an error the three other results are nil:
    the empty list and the empty maps. *)
Definition List (oc : Config) (get : GetResult)
    : list tags_event
      * (list string * gmap string Time * gmap string Z * option error) :=
  let sending :=
    if Verbose oc
    then [EvPrintf ("Sending request to %s/api/tags" +:+ LF) [AStr (API oc)]]
    else [] in
  let request := EvGet (API oc +:+ "/api/tags") in
  match get with
  | GetError err => (sending ++ [request], ([], ∅, ∅, Some err))
  | GetResponse _ (DecodeFails err) =>
      (sending ++ [request; EvDecodeList (DecodeFails err); EvCloseBody],
       ([], ∅, ∅, Some err))
  | GetResponse _ (Decoded listResp) =>
      let '(names, modifiedMap, sizeMap) :=
        collect (Models listResp) [] ∅ ∅ in
      (sending ++ [request; EvDecodeList (Decoded listResp); EvCloseBody],
       (names, modifiedMap, sizeMap, None))
  end.

(** [m[k]] on a [map[string]int64]: zero when [k] is absent. *)
Definition index_size (m : gmap string Z) (k : string) : Z :=
  default 0 (m !! k).

Section Lookup.

(** [strings.TrimSpace], of the Go standard library. *)
Variable TrimSpace : string -> string.

(** Lines 316-319 and 334-337: the name that is looked up. *)
Definition tagged (model : string) : string :=
  let model := TrimSpace model in
  if negb (Contains model ":") then model +:+ ":latest" else model.

(** The [for] loop of [SizeOf], lines 324-328: the size at the first name
    equal to [model], if any. *)
Fixpoint size_at (model : string) (sizeMap : gmap string Z)
    (names : list string) : option Z :=
  match names with
  | [] => None
  | name :: rest =>
      if String.eqb name model then Some (index_size sizeMap name)
      else size_at model sizeMap rest
  end.

(** [SizeOf], lines 315-330. *)
Definition SizeOf (oc : Config) (model : string) (get : GetResult)
    : list tags_event * (Z * option error) :=
  let model := tagged model in
  let '(tr, (names, _, sizeMap, err)) := List oc get in
  match err with
  | Some err => (tr, (0, Some err))
  | None =>
      match size_at model sizeMap names with
      | Some size => (tr, (size, None))
      | None =>
          (tr, (-1, Some (errors_New ("could not find model: " +:+ model))))
      end
  end.

(** The [for] loop of [Has], lines 339-343. *)
Fixpoint name_in (model : string) (names : list string) : bool :=
  match names with
  | [] => false
  | name :: rest => if String.eqb name model then true else name_in model rest
  end.

(** [Has], lines 333-348. *)
Definition Has (oc : Config) (model : string) (get : GetResult)
    : list tags_event * bool :=
  let model := tagged model in
  let '(tr, (names, _, _, err)) := List oc get in
  match err with
  | None => (tr, name_in model names)
  | Some err =>
      (tr ++ [EvPrintError "error when calling /api/tags: " err], false)
  end.

(** [HasModel], lines 351-353. *)
Definition HasModel (oc : Config) (get : GetResult)
    : list tags_event * bool :=
  Has oc (Model oc) get.

(** [PullIfNeeded], lines 357-364, over the [Pull] of the same file: the
    events of the tag listing, the events of the pull if there is one, and
    the error returned. *)
Definition PullIfNeeded (oc : Config) (optionalVerbose : list bool)
    (get : GetResult) (w : World Historical.PullResponse)
    : list tags_event * list (event Historical.PullResponse)
      * call_end (option error) :=
  let '(tr, has) := HasModel oc get in
  if negb has then
    match Historical.Pull oc optionalVerbose w with
    | (tr', Returned _ (Some err)) => (tr, tr', Returns (Some err))
    | (tr', Returned _ None) => (tr, tr', Returns None)
    | (tr', Panicked) => (tr, tr', Panics)
    end
  else (tr, [], Returns None).

End Lookup.

End Tags.

(** * Properties *)

(** ** The progress-bar renderer *)

Lemma Repeat_nonneg (s : string) (n : Z) :
  0 <= n -> Repeat s n = Some (repeat_string s (Z.to_nat n)).
Proof.
  intros Hn. unfold Repeat.
  destruct (Z.ltb_spec n 0) as [Hneg | _]; [lia | reflexivity].
Qed.


Lemma max_0_nonneg (x : Z) : 0 <= max 0 x.
Proof. unfold max. destruct (Z.ltb_spec x 0); lia. Qed.

Lemma Repeat_max_0 (s : string) (x : Z) :
  Repeat s (max 0 x) = Some (repeat_string s (Z.to_nat (max 0 x))).
Proof. apply Repeat_nonneg, max_0_nonneg. Qed.

Lemma max_le_r (a b : Z) : a <= b -> max a b = b.
Proof. intros Hab. unfold max. destruct (Z.ltb_spec b a); lia. Qed.



Lemma int_of_float64_bounds (f : Q) (n : Z) :
  (0 <= f <= inject_Z n)%Q -> 0 <= int_of_float64 f <= n.
Proof.
  intros [Hlo Hhi]. unfold int_of_float64.
  unfold Qle in Hlo, Hhi. simpl in Hlo, Hhi.
  split.
  - apply Z.quot_pos; lia.
  - apply Z.quot_le_upper_bound; lia.
Qed.


Lemma scaled_progress_bounds (progress : Q) (width : Z) :
  (0 <= progress <= 100)%Q -> 1 <= width ->
  (0 <= progress / 100 * float64_of_int width <= inject_Z width)%Q.
Proof.
  intros [Hlo Hhi] Hw. unfold float64_of_int.
  assert (HW : (1 <= inject_Z width)%Q) by (unfold Qle; simpl; lia).
  set (t := (progress / 100)%Q).
  assert (Ht : (0 <= t <= 1)%Q).
  { unfold t; split.
    - apply Qle_shift_div_l; [reflexivity | lra].
    - apply Qle_shift_div_r; [reflexivity | lra]. }
  destruct Ht as [Ht0 Ht1]. split.
  - apply Qmult_le_0_compat; [exact Ht0 | lra].
  - apply Qle_trans with (1 * inject_Z width)%Q.
    + apply Qmult_le_compat_r; [exact Ht1 | lra].
    + rewrite Qmult_1_l. apply Qle_refl.
Qed.

Lemma append_assoc (a b c : string) : (a +:+ b) +:+ c = a +:+ (b +:+ c).
Proof.
  induction a as [| ch a IH]; [reflexivity |].
  exact (f_equal (String ch) IH).
Qed.

Lemma progressInt_bounds (progress : Q) (width : Z) :
  (0 <= progress <= 100)%Q -> 1 <= width ->
  0 <= progressInt progress width <= width.
Proof.
  intros Hp Hw. unfold progressInt.
  apply int_of_float64_bounds, scaled_progress_bounds; assumption.
Qed.

(** The renderer does not panic as long as the first count is not negative
    and does not exceed the width; its bar starts with that many fill
    characters after the first colour code. *)
Lemma generateColorizedProgressBar_prefix
    (cs : gmap string string) (progress : Q) (width : Z) :
  0 <= progressInt progress width <= width ->
  exists rest : string,
    generateColorizedProgressBar cs progress width
    = Some (index_map cs "blue"
            +:+ repeat_string "=" (Z.to_nat (progressInt progress width))
            +:+ rest).
Proof.
  intros [Hlo Hhi]. unfold generateColorizedProgressBar.
  fold (progressInt progress width).
  set (p := progressInt progress width) in *.
  rewrite (Repeat_nonneg "=" p Hlo). cbn [mbind option_bind].
  rewrite (max_le_r p width Hhi).
  replace (int_sub width width) with 0
    by (unfold int_sub; now rewrite Z.sub_diag).
  set (blue := index_map cs "blue" +:+ repeat_string "=" (Z.to_nat p)).
  destruct (int_quot width 3 <? p);
    destruct (int_quot (int_mul 2 width) 3 <? p);
    rewrite ?Repeat_max_0; cbn [mbind option_bind];
    rewrite (Repeat_nonneg " " 0) by lia; cbn [mbind option_bind];
    eexists; unfold blue; rewrite ?append_assoc; reflexivity.
Qed.







(** ** [Pull] of src/pull.go: one iteration *)

Section Events.
Context {Resp : Type}.

Lemma print_not_read (tr : list (event Resp)) :
  Forall (fun e => is_print e = true) tr ->
  Forall (fun e => is_read e = false) tr.
Proof.
  intros Hall. eapply Forall_impl; [exact Hall |].
  intros [] Hp; try discriminate Hp; reflexivity.
Qed.

Lemma print_not_decode (tr : list (event Resp)) :
  Forall (fun e => is_print e = true) tr ->
  Forall (fun e => is_decode e = false) tr.
Proof.
  intros Hall. eapply Forall_impl; [exact Hall |].
  intros [] Hp; try discriminate Hp; reflexivity.
Qed.

End Events.

Lemma new_part_eq verbose last digest :
  new_part verbose last digest
  = ((if phaseBoundary last digest && verbose then [EvPrint LF []] else []),
     Continue tt).
Proof.
  unfold new_part, when, emit, ret.
  destruct (phaseBoundary last digest), verbose; reflexivity.
Qed.

Lemma index_spinner (n : Z) :
  0 <= n ->
  exists s : string,
    index_slice spinner (Z.rem n (Z.of_nat (length spinner))) = Some s.
Proof.
  intros Hn. change (Z.of_nat (length spinner)) with 4.
  pose proof (Z.rem_bound_pos n 4 Hn ltac:(lia)) as Hr.
  assert (Hc : Z.rem n 4 = 0 \/ Z.rem n 4 = 1 \/ Z.rem n 4 = 2 \/ Z.rem n 4 = 3)
    by lia.
  destruct Hc as [-> | [-> | [-> | ->]]]; eexists; reflexivity.
Qed.

Lemma display_prints oc verbose cs sp resp :
  Forall (fun e => is_print e = true) (fst (display oc verbose cs sp resp)).
Proof.
  unfold display, bind, when, emit, ret, stop, orPanic.
  fold (progress_of resp).
  destruct (Total resp =? 0), verbose;
    try destruct (index_slice _ _);
    try destruct (generateColorizedProgressBar _ _ _);
    cbn [fst app]; repeat constructor.
Qed.

Lemma display_snd oc verbose cs sp resp :
  0 <= sp ->
  snd (display oc verbose cs sp resp)
  = if renders cs resp
    then Continue (if (Total resp =? 0) && verbose then sp + 1 else sp)
    else Stop Panicked.
Proof.
  intros Hsp. destruct (index_spinner sp Hsp) as [s Hs].
  unfold display, renders, bind, when, emit, ret, stop, orPanic.
  fold (progress_of resp). rewrite Hs.
  destruct (Total resp =? 0), verbose; cbn [orb andb snd]; try reflexivity;
    destruct (generateColorizedProgressBar _ _ _) eqn:Hbar;
    cbn [snd]; try reflexivity.
Qed.

Lemma finish_success oc verbose w st resp sp :
  Status resp = "success" ->
  snd (finish oc verbose w st resp sp) = Stop (Returned (sb st) None)
  /\ Forall (fun e => is_print e = true) (fst (finish oc verbose w st resp sp)).
Proof.
  intros Hs. unfold finish, bind, when, emit, ret, stop.
  rewrite Hs. cbn [String.eqb Ascii.eqb Bool.eqb andb].
  destruct verbose; cbn [fst snd app]; split;
    try reflexivity; repeat constructor.
Qed.

Lemma finish_other oc verbose w st resp sp :
  Status resp <> "success" ->
  finish oc verbose w st resp sp
  = ([EvSince (w (sinceCalls st))],
     if defaultPullTimeout <? w (sinceCalls st)
     then Stop (Returned (sb st)
                  (Some (Errorf "downloading %s timed out after %v"
                           [AStr (Model oc); ADuration defaultPullTimeout])))
     else Continue (mkLoopState (sb st) sp (Digest resp) (S (sinceCalls st)))).
Proof.
  intros Hs. unfold finish, bind, emit, ret, stop.
  destruct (String.eqb_spec (Status resp) "success") as [Heq | _];
    [contradiction |].
  destruct (defaultPullTimeout <? w (sinceCalls st)); reflexivity.
Qed.

(** What an iteration ends with, by its stages. *)
Lemma iteration_snd oc verbose cs w st resp :
  snd (iteration oc verbose cs w st resp)
  = match snd (display oc verbose cs (spinnerPosition st) resp) with
    | Continue sp => snd (finish oc verbose w st resp sp)
    | Stop o => Stop o
    end.
Proof.
  unfold iteration. rewrite new_part_eq. unfold bind.
  destruct (display _ _ _ _ _) as [tr2 [sp | o]]; cbn [snd]; [| reflexivity].
  destruct (finish _ _ _ _ _ _) as [tr3 r]. reflexivity.
Qed.

Lemma iteration_fst oc verbose cs w st resp :
  fst (iteration oc verbose cs w st resp)
  = (if phaseBoundary (lastDigest st) (Digest resp) && verbose
     then [EvPrint LF []] else [])
    ++ fst (display oc verbose cs (spinnerPosition st) resp)
    ++ match snd (display oc verbose cs (spinnerPosition st) resp) with
       | Continue sp => fst (finish oc verbose w st resp sp)
       | Stop _ => []
       end.
Proof.
  unfold iteration. rewrite new_part_eq. unfold bind.
  destruct (display _ _ _ _ _) as [tr2 [sp | o]]; cbn [fst snd].
  - destruct (finish _ _ _ _ _ _) as [tr3 r]. reflexivity.
  - now rewrite app_nil_r.
Qed.

Lemma display_stop oc verbose cs sp resp o :
  snd (display oc verbose cs sp resp) = Stop o -> o = Panicked.
Proof.
  unfold display, bind, when, emit, ret, stop, orPanic.
  destruct (Total resp =? 0), verbose;
    try destruct (index_slice _ _);
    try destruct (generateColorizedProgressBar _ _ _);
    cbn; congruence.
Qed.

Lemma finish_sb oc verbose w st resp sp :
  match snd (finish oc verbose w st resp sp) with
  | Continue st' => sb st' = sb st
  | Stop (Returned text _) => text = sb st
  | Stop Panicked => True
  end.
Proof.
  destruct (String.eqb_spec (Status resp) "success") as [Hs | Hs].
  - now rewrite (proj1 (finish_success oc verbose w st resp sp Hs)).
  - rewrite (finish_other oc verbose w st resp sp Hs). cbn [snd].
    destruct (defaultPullTimeout <? _); reflexivity.
Qed.

(** The builder [sb] is never written: a continuing iteration hands it on
    unchanged and a returning one returns it. *)
Lemma iteration_sb oc verbose cs w st resp :
  match snd (iteration oc verbose cs w st resp) with
  | Continue st' => sb st' = sb st
  | Stop (Returned text _) => text = sb st
  | Stop Panicked => True
  end.
Proof.
  rewrite iteration_snd.
  destruct (snd (display oc verbose cs (spinnerPosition st) resp))
    as [sp | o] eqn:Hd.
  - apply finish_sb.
  - now rewrite (display_stop _ _ _ _ _ _ Hd).
Qed.

Lemma pull_loop_sb oc verbose cs w body : forall st text err,
  snd (pull_loop oc verbose cs w st body) = Returned text err ->
  text = sb st.
Proof.
  induction body as [| [resp | e] rest IH]; intros st text err Hret.
  - cbn in Hret. congruence.
  - pose proof (iteration_sb oc verbose cs w st resp) as Hsb.
    cbn [pull_loop] in Hret.
    destruct (iteration oc verbose cs w st resp) as [tr [st' | o]];
      cbn [snd] in Hsb.
    + destruct (pull_loop oc verbose cs w st' rest) as [tr' o'] eqn:Hloop.
      cbn [snd] in Hret. rewrite <- Hsb. apply (IH st' text err).
      now rewrite Hloop.
    + cbn [snd] in Hret. subst o. exact Hsb.
  - cbn in Hret. congruence.
Qed.

(** Whatever [Pull] of pull.go returns, the returned text is empty. *)
Lemma Pull_text_empty oc optionalVerbose w text err :
  snd (Pull oc optionalVerbose w) = Returned text err -> text = "".
Proof.
  unfold Pull. destruct (http_Post w) as [e | code body].
  - cbn [snd]. congruence.
  - destruct (pull_loop _ _ _ _ _ body) as [tr o] eqn:Hloop.
    cbn [snd]. intros ->.
    change "" with (sb (mkLoopState "" 0 "" 0)).
    eapply pull_loop_sb. rewrite Hloop. reflexivity.
Qed.

(** *** Verbosity does not decide how an iteration ends *)

Lemma finish_verbose oc1 oc2 v1 v2 w st1 st2 resp sp1 sp2 :
  Model oc1 = Model oc2 ->
  sb st1 = sb st2 -> sinceCalls st1 = sinceCalls st2 ->
  0 <= sp1 -> 0 <= sp2 ->
  match snd (finish oc1 v1 w st1 resp sp1),
        snd (finish oc2 v2 w st2 resp sp2) with
  | Continue s1, Continue s2 =>
      sb s1 = sb s2 /\ sinceCalls s1 = sinceCalls s2
      /\ 0 <= spinnerPosition s1 /\ 0 <= spinnerPosition s2
  | Stop o1, Stop o2 => o1 = o2
  | _, _ => False
  end.
Proof.
  intros Hmodel Hsb Hcalls Hsp1 Hsp2.
  destruct (String.eqb_spec (Status resp) "success") as [Hs | Hs].
  - rewrite (proj1 (finish_success oc1 v1 w st1 resp sp1 Hs)).
    rewrite (proj1 (finish_success oc2 v2 w st2 resp sp2 Hs)).
    now rewrite Hsb.
  - rewrite !finish_other by exact Hs. cbn [snd].
    rewrite Hmodel, Hsb, Hcalls.
    destruct (defaultPullTimeout <? _); cbn; auto.
Qed.

Lemma iteration_verbose oc1 oc2 v1 v2 cs w st1 st2 resp :
  Model oc1 = Model oc2 ->
  sb st1 = sb st2 -> sinceCalls st1 = sinceCalls st2 ->
  0 <= spinnerPosition st1 -> 0 <= spinnerPosition st2 ->
  match snd (iteration oc1 v1 cs w st1 resp),
        snd (iteration oc2 v2 cs w st2 resp) with
  | Continue s1, Continue s2 =>
      sb s1 = sb s2 /\ sinceCalls s1 = sinceCalls s2
      /\ 0 <= spinnerPosition s1 /\ 0 <= spinnerPosition s2
  | Stop o1, Stop o2 => o1 = o2
  | _, _ => False
  end.
Proof.
  intros Hmodel Hsb Hcalls Hsp1 Hsp2.
  rewrite !iteration_snd, !display_snd by assumption.
  destruct (renders cs resp); [| reflexivity].
  apply finish_verbose; try assumption;
    destruct (_ && _); lia.
Qed.

Lemma pull_loop_verbose oc1 oc2 v1 v2 cs w body : forall st1 st2,
  Model oc1 = Model oc2 ->
  sb st1 = sb st2 -> sinceCalls st1 = sinceCalls st2 ->
  0 <= spinnerPosition st1 -> 0 <= spinnerPosition st2 ->
  snd (pull_loop oc1 v1 cs w st1 body) = snd (pull_loop oc2 v2 cs w st2 body).
Proof.
  induction body as [| [resp | e] rest IH];
    intros st1 st2 Hmodel Hsb Hcalls Hsp1 Hsp2.
  - cbn. now rewrite Hsb.
  - pose proof (iteration_verbose oc1 oc2 v1 v2 cs w st1 st2 resp
                  Hmodel Hsb Hcalls Hsp1 Hsp2) as Hit.
    cbn [pull_loop].
    destruct (iteration oc1 v1 cs w st1 resp) as [tr1 [s1 | o1]];
      destruct (iteration oc2 v2 cs w st2 resp) as [tr2 [s2 | o2]];
      cbn [snd] in Hit; try contradiction.
    + destruct Hit as (H1 & H2 & H3 & H4).
      specialize (IH s1 s2 Hmodel H1 H2 H3 H4).
      destruct (pull_loop oc1 v1 cs w s1 rest), (pull_loop oc2 v2 cs w s2 rest).
      exact IH.
    + exact Hit.
  - cbn. now rewrite Hsb.
Qed.

Lemma Pull_verbose oc1 oc2 opt1 opt2 w :
  Model oc1 = Model oc2 ->
  snd (Pull oc1 opt1 w) = snd (Pull oc2 opt2 w).
Proof.
  intros Hmodel. unfold Pull.
  destruct (http_Post w) as [e | code body]; [reflexivity |].
  set (cs := if env_NO_COLOR w then skip_colors colors else colors).
  pose proof (pull_loop_verbose oc1 oc2
                (verbose_of oc1 opt1) (verbose_of oc2 opt2)
                cs (time_Since w) body (mkLoopState "" 0 "" 0) (mkLoopState "" 0 "" 0)
                Hmodel eq_refl eq_refl ltac:(cbn; lia) ltac:(cbn; lia))
    as Hloop.
  destruct (pull_loop oc1 _ cs _ _ body), (pull_loop oc2 _ cs _ _ body).
  exact Hloop.
Qed.

(** *** After a success record nothing more is read *)

Lemma iteration_no_decode oc verbose cs w st resp :
  Forall (fun e => is_decode e = false) (fst (iteration oc verbose cs w st resp)).
Proof.
  rewrite iteration_fst. apply Forall_app. split; [| apply Forall_app; split].
  - destruct (_ && _); repeat constructor.
  - apply print_not_decode, display_prints.
  - destruct (snd (display _ _ _ _ _)) as [sp | o]; [| constructor].
    destruct (String.eqb_spec (Status resp) "success") as [Hs | Hs].
    + apply print_not_decode, (finish_success oc verbose w st resp sp Hs).
    + rewrite (finish_other oc verbose w st resp sp Hs). repeat constructor.
Qed.

Lemma iteration_success oc verbose cs w st resp :
  Status resp = "success" ->
  Forall (fun e => is_read e = false) (fst (iteration oc verbose cs w st resp))
  /\ exists o, snd (iteration oc verbose cs w st resp) = Stop o.
Proof.
  intros Hs. split.
  - rewrite iteration_fst. apply Forall_app. split; [| apply Forall_app; split].
    + destruct (_ && _); repeat constructor.
    + apply print_not_read, display_prints.
    + destruct (snd (display _ _ _ _ _)) as [sp | o]; [| constructor].
      apply print_not_read, (finish_success oc verbose w st resp sp Hs).
  - rewrite iteration_snd.
    destruct (snd (display _ _ _ _ _)) as [sp | o]; [| now exists o].
    rewrite (proj1 (finish_success oc verbose w st resp sp Hs)). now eexists.
Qed.

Lemma quiet_after_success_cons (e : event PullResponse) tr :
  (forall resp, e = EvDecode (Decoded resp) -> Status resp = "success" ->
                Forall (fun e => is_read e = false) tr) ->
  quiet_after_success tr -> quiet_after_success (e :: tr).
Proof. intros He Htr. split; assumption. Qed.

Lemma quiet_after_success_app_l tr1 tr2 :
  Forall (fun e => is_decode e = false) tr1 ->
  quiet_after_success tr2 -> quiet_after_success (tr1 ++ tr2).
Proof.
  intros Hnd Hq. induction Hnd as [| e tr1 He _ IH]; [exact Hq |].
  cbn [app]. apply quiet_after_success_cons; [| exact IH].
  intros resp ->. discriminate He.
Qed.

Lemma quiet_after_success_app_r tr1 tr2 :
  quiet_after_success tr1 ->
  Forall (fun e => is_read e = false) tr2 -> quiet_after_success (tr1 ++ tr2).
Proof.
  intros Hq Hnr. induction tr1 as [| e tr1 IH].
  - cbn [app]. induction Hnr as [| e tr2 He _ IH]; [exact I |].
    apply quiet_after_success_cons; [| exact IH].
    intros resp ->. discriminate He.
  - destruct Hq as [He Hq]. cbn [app].
    apply quiet_after_success_cons; [| exact (IH Hq)].
    intros resp Heq Hs. apply Forall_app. split; [exact (He resp Heq Hs) | exact Hnr].
Qed.

Lemma quiet_after_success_split tr : forall tr1 resp tr2,
  quiet_after_success tr ->
  tr = tr1 ++ EvDecode (Decoded resp) :: tr2 ->
  Status resp = "success" ->
  Forall (fun e => is_read e = false) tr2.
Proof.
  induction tr as [| e tr IH]; intros tr1 resp tr2 Hq Heq Hs.
  - destruct tr1; discriminate Heq.
  - destruct Hq as [He Hq]. destruct tr1 as [| e1 tr1]; cbn [app] in Heq.
    + injection Heq as -> ->. exact (He resp eq_refl Hs).
    + injection Heq as -> Heq. exact (IH tr1 resp tr2 Hq Heq Hs).
Qed.

Lemma pull_loop_quiet oc verbose cs w body : forall st,
  quiet_after_success (fst (pull_loop oc verbose cs w st body)).
Proof.
  induction body as [| [resp | e] rest IH]; intros st.
  - cbn. split; [intros resp Heq; discriminate Heq | exact I].
  - pose proof (iteration_no_decode oc verbose cs w st resp) as Hnd.
    pose proof (iteration_success oc verbose cs w st resp) as Hsucc.
    cbn [pull_loop].
    destruct (iteration oc verbose cs w st resp) as [tr [st' | o]];
      cbn [fst snd] in Hnd, Hsucc.
    + specialize (IH st').
      destruct (pull_loop oc verbose cs w st' rest) as [tr' o'].
      cbn [fst] in IH |- *.
      apply quiet_after_success_cons.
      * intros resp' Heq Hs. injection Heq as <-.
        destruct (Hsucc Hs) as [_ [o Ho]]. discriminate Ho.
      * apply quiet_after_success_app_l; assumption.
    + cbn [fst]. apply quiet_after_success_cons.
      * intros resp' Heq Hs. injection Heq as <-. exact (proj1 (Hsucc Hs)).
      * rewrite <- (app_nil_r tr).
        apply quiet_after_success_app_l; [exact Hnd | exact I].
  - cbn. split; [intros resp Heq; discriminate Heq | exact I].
Qed.

Lemma Pull_quiet oc optionalVerbose w :
  quiet_after_success (fst (Pull oc optionalVerbose w)).
Proof.
  unfold Pull. destruct (http_Post w) as [e | code body].
  - cbn [fst]. apply quiet_after_success_app_l.
    + destruct (verbose_of oc optionalVerbose); repeat constructor.
    + split; [intros resp Heq; discriminate Heq | exact I].
  - pose proof (pull_loop_quiet oc (verbose_of oc optionalVerbose)
                  (if env_NO_COLOR w then skip_colors colors else colors)
                  (time_Since w) body (mkLoopState "" 0 "" 0)) as Hq.
    destruct (pull_loop _ _ _ _ _ body) as [tr o]. cbn [fst] in Hq |- *.
    apply quiet_after_success_app_l.
    + destruct (verbose_of oc optionalVerbose); repeat constructor.
    + apply quiet_after_success_cons; [intros resp Heq; discriminate Heq |].
      apply quiet_after_success_app_r; [exact Hq | repeat constructor].
Qed.

(** C7.  In every execution of [Pull], whatever follows the decoding of a
    record whose status is "success" contains no further [Decode] and no
    evaluation of [time.Since]: the success check of an iteration comes
    before its timeout check, and leaves the loop. *)
Theorem Pull_success_stops_reading oc optionalVerbose w tr1 resp tr2 :
  fst (Pull oc optionalVerbose w) = tr1 ++ EvDecode (Decoded resp) :: tr2 ->
  Status resp = "success" ->
  Forall (fun e => is_read e = false) tr2.
Proof.
  intros Htr Hs.
  exact (quiet_after_success_split _ tr1 resp tr2
           (Pull_quiet oc optionalVerbose w) Htr Hs).
Qed.

(** ** The strict [Pull] of part_000 *)

(** How an iteration of the strict loop ends. *)
Lemma historical_iteration_snd oc verbose w st pullResp :
  snd (Historical.iteration oc verbose w st pullResp)
  = let sb := Historical.sb st +:+ Historical.Status pullResp in
    if negb (HasPrefix (Historical.Status pullResp) "downloading ")
       && negb (HasPrefix (Historical.Status pullResp) "pulling ")
    then
      if HasPrefix (Historical.Status pullResp) "verifying "
      then Stop (Returned sb None)
      else Stop (Returned ""
                   (Some (Errorf "recevied status when downloading: %s"
                            [AStr (Historical.Status pullResp)])))
    else
      if PullTimeout oc <? w (Historical.sinceCalls st)
      then Stop (Returned sb
                   (Some (Errorf "pull timed out after %v"
                            [ADuration (PullTimeout oc)])))
      else Continue (Historical.mkLoopState sb (Historical.gotUnusualStatus st)
                       (S (Historical.sinceCalls st))).
Proof.
  unfold Historical.iteration, Historical.break_to, Historical.after_loop,
    bind, when, emit, ret, stop.
  cbv zeta.
  destruct (HasPrefix (Historical.Status pullResp) "downloading "),
    (HasPrefix (Historical.Status pullResp) "pulling "),
    (HasPrefix (Historical.Status pullResp) "verifying "),
    verbose, (Historical.gotUnusualStatus st),
    (PullTimeout oc <? w (Historical.sinceCalls st));
    reflexivity.
Qed.

Lemma historical_pull_loop_verbose oc1 oc2 v1 v2 w body : forall st1 st2,
  PullTimeout oc1 = PullTimeout oc2 ->
  Historical.sb st1 = Historical.sb st2 ->
  Historical.sinceCalls st1 = Historical.sinceCalls st2 ->
  snd (Historical.pull_loop oc1 v1 w st1 body)
  = snd (Historical.pull_loop oc2 v2 w st2 body).
Proof.
  induction body as [| [pullResp | e] rest IH];
    intros st1 st2 Htimeout Hsb Hcalls.
  - cbn. unfold Historical.after_loop. rewrite Hsb.
    destruct v1, v2; reflexivity.
  - pose proof (historical_iteration_snd oc1 v1 w st1 pullResp) as H1.
    pose proof (historical_iteration_snd oc2 v2 w st2 pullResp) as H2.
    rewrite <- Htimeout, <- Hsb, <- Hcalls in H2. cbv zeta in H1, H2.
    cbn [Historical.pull_loop].
    destruct (Historical.iteration oc1 v1 w st1 pullResp) as [tr1 r1];
      destruct (Historical.iteration oc2 v2 w st2 pullResp) as [tr2 r2].
    cbn [snd] in H1, H2. subst r1 r2.
    destruct (negb _ && negb _).
    + destruct (HasPrefix _ "verifying "); reflexivity.
    + destruct (PullTimeout oc1 <? _); [reflexivity |].
      specialize (IH (Historical.mkLoopState
                        (Historical.sb st1 +:+ Historical.Status pullResp)
                        (Historical.gotUnusualStatus st1)
                        (S (Historical.sinceCalls st1)))
                     (Historical.mkLoopState
                        (Historical.sb st1 +:+ Historical.Status pullResp)
                        (Historical.gotUnusualStatus st2)
                        (S (Historical.sinceCalls st1)))
                     Htimeout eq_refl eq_refl).
      destruct (Historical.pull_loop oc1 v1 w _ rest),
        (Historical.pull_loop oc2 v2 w _ rest).
      exact IH.
  - cbn. unfold Historical.after_loop. rewrite Hsb.
    destruct v1, v2; reflexivity.
Qed.

Lemma historical_Pull_verbose oc1 oc2 opt1 opt2 w :
  PullTimeout oc1 = PullTimeout oc2 ->
  snd (Historical.Pull oc1 opt1 w) = snd (Historical.Pull oc2 opt2 w).
Proof.
  intros Htimeout. unfold Historical.Pull.
  destruct (http_Post w) as [e | code body]; [reflexivity |].
  pose proof (historical_pull_loop_verbose oc1 oc2
                (verbose_of oc1 opt1) (verbose_of oc2 opt2) (time_Since w) body
                (Historical.mkLoopState "" false 0)
                (Historical.mkLoopState "" false 0)
                Htimeout eq_refl eq_refl) as Hloop.
  destruct (Historical.pull_loop oc1 _ _ _ body),
    (Historical.pull_loop oc2 _ _ _ body).
  exact Hloop.
Qed.

(** C9.  For every configuration and every world (environment, response
    stream, clock), the outcome of [Pull] -- the returned text and error,
    or the panic -- is the same whatever the [Verbose] field and the
    optional argument say; this holds for the [Pull] of pull.go and for the
    strict [Pull] of part_000. *)
Theorem Pull_outcome_independent_of_verbose
    (api model : string) (timeout : Duration)
    (verbose1 verbose2 : bool) (optionalVerbose1 optionalVerbose2 : list bool) :
  (forall w : World PullResponse,
     snd (Pull (mkConfig api model verbose1 timeout) optionalVerbose1 w)
     = snd (Pull (mkConfig api model verbose2 timeout) optionalVerbose2 w))
  /\ (forall w : World Historical.PullResponse,
        snd (Historical.Pull (mkConfig api model verbose1 timeout)
               optionalVerbose1 w)
        = snd (Historical.Pull (mkConfig api model verbose2 timeout)
                 optionalVerbose2 w)).
Proof.
  split; intros w.
  - apply Pull_verbose. reflexivity.
  - apply historical_Pull_verbose. reflexivity.
Qed.

(** The strict loop through records that all carry one of the two
    expected prefixes and meet no timeout. *)
Lemma historical_pull_loop_through oc verbose w pre tail : forall st,
  Forall (fun r => HasPrefix (Historical.Status r) "downloading "
                   || HasPrefix (Historical.Status r) "pulling " = true) pre ->
  (forall k, (k < length pre)%nat ->
             w (Historical.sinceCalls st + k)%nat <= PullTimeout oc) ->
  snd (Historical.pull_loop oc verbose w st (map Decoded pre ++ tail))
  = snd (Historical.pull_loop oc verbose w
           (Historical.mkLoopState (written (Historical.sb st) pre)
              (Historical.gotUnusualStatus st)
              (Historical.sinceCalls st + length pre)%nat)
           tail).
Proof.
  induction pre as [| r pre IH]; intros st Hpre Hclock.
  - cbn [map app written fold_left length]. rewrite Nat.add_0_r.
    destruct st; reflexivity.
  - inversion Hpre as [| r' pre' Hr Hpre']; subst.
    cbn [map app Historical.pull_loop].
    pose proof (historical_iteration_snd oc verbose w st r) as Hit.
    cbv zeta in Hit.
    assert (Hboth : negb (HasPrefix (Historical.Status r) "downloading ")
                    && negb (HasPrefix (Historical.Status r) "pulling ")
                    = false).
    { destruct (HasPrefix _ "downloading "), (HasPrefix _ "pulling ");
        try reflexivity; discriminate Hr. }
    rewrite Hboth in Hit.
    assert (Hnow : (PullTimeout oc <? w (Historical.sinceCalls st))
                   = false).
    { apply Z.ltb_ge. specialize (Hclock 0%nat ltac:(cbn; lia)).
      now rewrite Nat.add_0_r in Hclock. }
    rewrite Hnow in Hit.
    destruct (Historical.iteration oc verbose w st r) as [tr s].
    cbn [snd] in Hit. subst s.
    assert (Hlater : forall k, (k < length pre)%nat ->
              w (S (Historical.sinceCalls st) + k)%nat
              <= PullTimeout oc).
    { intros k Hk. specialize (Hclock (S k) ltac:(cbn; lia)).
      replace (S (Historical.sinceCalls st) + k)%nat
        with (Historical.sinceCalls st + S k)%nat by lia.
      exact Hclock. }
    specialize (IH (Historical.mkLoopState
                      (Historical.sb st +:+ Historical.Status r)
                      (Historical.gotUnusualStatus st)
                      (S (Historical.sinceCalls st))) Hpre' Hlater).
    cbn [Historical.sb Historical.gotUnusualStatus Historical.sinceCalls] in IH.
    destruct (Historical.pull_loop oc verbose w _ (map Decoded pre ++ tail)).
    cbn [snd] in IH |- *. rewrite IH.
    unfold written. cbn [fold_left length].
    replace (S (Historical.sinceCalls st) + length pre)%nat
      with (Historical.sinceCalls st + S (length pre))%nat by lia.
    reflexivity.
Qed.

(** C10.  In the strict [Pull] of part_000, a decoded record -- one that
    follows records which all carried the "downloading " or the "pulling "
    prefix and met no timeout -- whose status has neither prefix ends the
    call: with the "verifying " prefix the loop is left and [Pull] returns
    the accumulated text (the statuses written so far, this one included)
    and no error; otherwise, the status "success" included, [Pull] returns
    the empty string and an error that embeds the status. *)
Theorem historical_Pull_other_status
    oc optionalVerbose (w : World Historical.PullResponse)
    code pre pullResp rest :
  http_Post w = PostResponse code (map Decoded pre ++ Decoded pullResp :: rest) ->
  Forall (fun r => HasPrefix (Historical.Status r) "downloading "
                   || HasPrefix (Historical.Status r) "pulling " = true) pre ->
  (forall k, (k < length pre)%nat -> time_Since w k <= PullTimeout oc) ->
  HasPrefix (Historical.Status pullResp) "downloading " = false ->
  HasPrefix (Historical.Status pullResp) "pulling " = false ->
  snd (Historical.Pull oc optionalVerbose w)
  = if HasPrefix (Historical.Status pullResp) "verifying "
    then Returned (written "" pre +:+ Historical.Status pullResp) None
    else Returned ""
           (Some (Errorf "recevied status when downloading: %s"
                    [AStr (Historical.Status pullResp)])).
Proof.
  intros Hpost Hpre Hclock Hd Hp. unfold Historical.Pull. rewrite Hpost.
  pose proof (historical_pull_loop_through oc (verbose_of oc optionalVerbose)
                (time_Since w) pre (Decoded pullResp :: rest)
                (Historical.mkLoopState "" false 0) Hpre Hclock) as Hloop.
  destruct (Historical.pull_loop oc _ _ _ (map Decoded pre ++ _)) as [tr o].
  cbn [snd] in Hloop |- *. rewrite Hloop. clear Hloop.
  cbn [Historical.pull_loop Historical.sb Historical.gotUnusualStatus
       Historical.sinceCalls].
  match goal with
  | |- context [Historical.iteration ?a ?b ?c ?d ?e] =>
      pose proof (historical_iteration_snd a b c d e) as Hit;
      destruct (Historical.iteration a b c d e) as [tr' s]
  end.
  cbv zeta in Hit. rewrite Hd, Hp in Hit.
  cbn [negb andb snd Historical.sb] in Hit. subst s.
  destruct (HasPrefix (Historical.Status pullResp) "verifying "); reflexivity.
Qed.

(** ** The claims on concrete runs *)

(** C5.  The code panics where the claim promises clamping.  A record
    with completed = 2 * total gives progress 200; at width 30 the first
    count is 60, the padding count is 30 - max(60, 30) = -30, and
    [strings.Repeat] panics on it; [Pull] renders the bar for every record
    with a non-zero total, verbose or not, and panics with it. *)
Theorem generateColorizedProgressBar_panics_at_200 :
  (progress_of overfull_record == 200)%Q
  /\ progressInt 200 30 = 60
  /\ int_sub 30 (max 60 30) = -30
  /\ Repeat " " (-30) = None
  /\ generateColorizedProgressBar colors 200 30 = None
  /\ snd (Pull sample_oc [] overfull_world) = Panicked.
Proof. repeat split; vm_compute; reflexivity. Qed.

(** C1.  The stream of [success_world] ends in a success record with
    completed = total = 100.  [Pull] stops there and returns no error, but
    the returned text is empty: it does not contain "success", nor any
    status of the stream. *)
Theorem Pull_success_returns_empty_text :
  snd (Pull sample_oc [] success_world) = Returned "" None
  /\ snd (Pull sample_oc [true] success_world) = Returned "" None
  /\ ~ (exists before after : string, "" = before +:+ "success" +:+ after).
Proof.
  split; [vm_compute; reflexivity | split; [vm_compute; reflexivity |]].
  intros (before & after & Heq). destruct before; discriminate Heq.
Qed.

(** C2.  In [broken_world] the third [Decode] fails.  [Pull] returns that
    error, but with the empty text, not with the statuses of the first two
    records. *)
Theorem Pull_decode_error_returns_empty_text :
  snd (Pull sample_oc [] broken_world)
  = Returned ""
      (Some (LibError "invalid character 'x' looking for beginning of value"))
  /\ Status manifest_record +:+ Status layer_record
     = "pulling manifestpulling 8934d96d3f08".
Proof. split; vm_compute; reflexivity. Qed.

(** C3.  [sample_oc] is configured with a pull timeout of one hour, and in
    [late_world] the session is two hours old when the check after the
    first record runs.  [Pull] does not time out: it compares with the
    48-hour constant, reads the next record and returns no error. *)
Theorem Pull_ignores_configured_timeout :
  PullTimeout sample_oc = 1 * Hour
  /\ fst (Pull sample_oc [] late_world)
     = [EvPost "http://localhost:11434/api/pull"
          (AJSON [("Name", JString "llama2"); ("Stream", JBool true)]);
        EvDecode (Decoded manifest_record);
        EvSince (2 * Hour);
        EvDecode (Decoded success_record);
        EvClose]
  /\ snd (Pull sample_oc [] late_world) = Returned "" None.
Proof. repeat split. Qed.


(** C6, as amended.  When the POST itself fails ([http.Post] returns an
    error: connection refused, network error), [Pull] returns the empty
    text and that error at once: no record is decoded and the clock is not
    read.  The status code of an answer is never looked at: whatever it is,
    the body goes through the loop. *)
Theorem Pull_post_error oc optionalVerbose w err :
  http_Post w = PostError err ->
  snd (Pull oc optionalVerbose w) = Returned "" (Some err)
  /\ Forall (fun e => is_read e = false) (fst (Pull oc optionalVerbose w))
  /\ (forall no_color code1 code2 body clock,
        Pull oc optionalVerbose (mkWorld no_color (PostResponse code1 body) clock)
        = Pull oc optionalVerbose
            (mkWorld no_color (PostResponse code2 body) clock)).
Proof.
  intros Hpost. unfold Pull. rewrite Hpost. cbn [fst snd].
  split; [reflexivity | split].
  - destruct (verbose_of oc optionalVerbose); repeat constructor.
  - reflexivity.
Qed.

Lemma Pull_post_error_witness :
  snd (Pull sample_oc [] refused_world)
  = Returned "" (Some (LibError "connection refused"))
  /\ Forall (fun e => is_read e = false) (fst (Pull sample_oc [] refused_world)).
Proof.
  pose proof (Pull_post_error sample_oc [] refused_world
                (LibError "connection refused") eq_refl) as H.
  exact (conj (proj1 H) (proj1 (proj2 H))).
Defined.

(** C6, as stated, fails.  The answer of [not_found_world] has status 404,
    which is not in the range 2xx; all the same [Pull] decodes a record
    from its body, runs the timeout check, and returns an error only when
    the next [Decode] meets the end of the stream. *)
Lemma Pull_enters_loop_on_404 :
  http_Post not_found_world
  = PostResponse 404 [Decoded (mkPullResponse "" 0 0 "")]
  /\ ~ (200 <= 404 < 300)
  /\ fst (Pull sample_oc [] not_found_world)
     = [EvPost "http://localhost:11434/api/pull"
          (AJSON [("Name", JString "llama2"); ("Stream", JBool true)]);
        EvDecode (Decoded (mkPullResponse "" 0 0 ""));
        EvSince 0;
        EvDecode (DecodeFails EOF);
        EvClose]
  /\ ~ Forall (fun e => is_decode e = false)
         (fst (Pull sample_oc [] not_found_world)).
Proof.
  split; [reflexivity | split; [lia | split; [reflexivity |]]].
  intros Hall. vm_compute in Hall.
  inversion Hall as [| e tr _ Htl]; subst.
  inversion Htl as [| e' tr' Hhd _]; subst. discriminate Hhd.
Qed.

Lemma Pull_success_stops_reading_witness :
  nth_error (fst (Pull sample_oc [true] success_world)) 8
  = Some (EvDecode (Decoded success_record))
  /\ Forall (fun e : event PullResponse => is_read e = false)
       (skipn 9 (fst (Pull sample_oc [true] success_world))).
Proof.
  split; [reflexivity |].
  apply (Pull_success_stops_reading sample_oc [true] success_world
           (firstn 8 (fst (Pull sample_oc [true] success_world)))
           success_record).
  - vm_compute. reflexivity.
  - reflexivity.
Defined.

(** ** The digest tracker *)

Lemma phaseBoundary_true (last digest : string) :
  phaseBoundary last digest = true <-> last <> "" /\ last <> digest.
Proof.
  unfold phaseBoundary.
  destruct (String.eqb_spec last "") as [He | He];
    destruct (String.eqb_spec last digest) as [Hd | Hd];
    cbn [negb andb]; split; try discriminate; try (intros [H1 H2]; congruence).
  intros _. split; assumption.
Qed.

(** Line 117: an iteration that goes on has stored the digest of its
    record. *)
Lemma iteration_lastDigest oc verbose cs w st resp tr st' :
  iteration oc verbose cs w st resp = (tr, Continue st') ->
  lastDigest st' = Digest resp.
Proof.
  intros Hit. pose proof (iteration_snd oc verbose cs w st resp) as Hsnd.
  rewrite Hit in Hsnd. cbn [snd] in Hsnd.
  destruct (snd (display oc verbose cs (spinnerPosition st) resp))
    as [sp | o]; [| discriminate Hsnd].
  destruct (String.eqb_spec (Status resp) "success") as [Hs | Hs].
  - rewrite (proj1 (finish_success oc verbose w st resp sp Hs)) in Hsnd.
    discriminate Hsnd.
  - rewrite (finish_other oc verbose w st resp sp Hs) in Hsnd. cbn [snd] in Hsnd.
    destruct (defaultPullTimeout <? _); [discriminate Hsnd |].
    injection Hsnd as Heq. subst st'. reflexivity.
Qed.

Lemma display_no_line_break oc verbose cs sp resp :
  ~ In (EvPrint LF []) (fst (display oc verbose cs sp resp)).
Proof.
  unfold display, bind, when, emit, ret, stop, orPanic.
  destruct (Total resp =? 0), verbose;
    try destruct (index_slice _ _);
    try destruct (generateColorizedProgressBar _ _ _);
    cbn [fst app In]; intros Hin;
    repeat (destruct Hin as [Hin | Hin]; [discriminate Hin |]); exact Hin.
Qed.

Lemma finish_no_line_break oc verbose w st resp sp :
  ~ In (EvPrint LF []) (fst (finish oc verbose w st resp sp)).
Proof.
  unfold finish, bind, when, emit, ret, stop.
  destruct (String.eqb (Status resp) "success"), verbose,
    (defaultPullTimeout <? w (sinceCalls st));
    cbn [fst app In]; intros Hin;
    repeat (destruct Hin as [Hin | Hin]; [discriminate Hin |]); exact Hin.
Qed.

(** Lines 112-116: in verbose mode an iteration starts with a line break
    exactly on a phase boundary, and prints no other. *)
Lemma iteration_line_break oc cs w st resp :
  exists tr,
    fst (iteration oc true cs w st resp)
    = (if phaseBoundary (lastDigest st) (Digest resp)
       then [EvPrint LF []] else []) ++ tr
    /\ ~ In (EvPrint LF []) tr.
Proof.
  rewrite iteration_fst, andb_true_r. eexists. split; [reflexivity |].
  intros Hin. apply in_app_or in Hin. destruct Hin as [Hin | Hin].
  - exact (display_no_line_break _ _ _ _ _ Hin).
  - destruct (snd (display _ _ _ _ _)) as [sp | o]; [| exact Hin].
    exact (finish_no_line_break _ _ _ _ _ _ Hin).
Qed.

(** C8, as amended.  The loop reports a phase boundary exactly when the
    last-seen digest is non-empty and differs from the digest of the current
    record (which may itself be empty); in verbose mode the iteration then
    starts with a line break, and prints no other; every iteration that
    goes on has stored the digest of its record as the last-seen one,
    boundary or not.  Hence for the digests [D1, D1, D2, D2], with D1
    non-empty and different from D2, exactly one boundary is detected: at
    the first D2 record. *)
Theorem phaseBoundary_on_last_digest (D1 D2 : string) :
  D1 <> "" -> D1 <> D2 ->
  (forall last digest : string,
     phaseBoundary last digest = true <-> last <> "" /\ last <> digest)
  /\ (forall oc cs w st resp, exists tr,
        fst (iteration oc true cs w st resp)
        = (if phaseBoundary (lastDigest st) (Digest resp)
           then [EvPrint LF []] else []) ++ tr
        /\ ~ In (EvPrint LF []) tr)
  /\ (forall oc verbose cs w st resp tr st',
        iteration oc verbose cs w st resp = (tr, Continue st') ->
        lastDigest st' = Digest resp)
  /\ phase_boundaries "" [D1; D1; D2; D2] = [false; false; true; false].
Proof.
  intros Hne Hdiff. split; [exact phaseBoundary_true | split; [| split]].
  - intros oc cs w st resp. apply iteration_line_break.
  - intros oc verbose cs w st resp tr st'. apply iteration_lastDigest.
  - cbn [phase_boundaries]. unfold phaseBoundary.
    rewrite !String.eqb_refl.
    destruct (String.eqb_spec D1 "") as [He | _]; [contradiction |].
    destruct (String.eqb_spec D1 D2) as [Hd | _]; [contradiction |].
    destruct (String.eqb D2 ""); reflexivity.
Qed.

Lemma phaseBoundary_on_last_digest_witness :
  phase_boundaries "" ["sha256:D1"; "sha256:D1"; "sha256:D2"; "sha256:D2"]
  = [false; false; true; false].
Proof.
  apply (phaseBoundary_on_last_digest "sha256:D1" "sha256:D2");
    discriminate.
Defined.

(** C8, as stated, fails.  After a record with digest D1, a record whose
    digest is empty (as the records that follow the layers are: "verifying
    sha256 digest", "writing manifest", "success") is reported as a phase
    boundary, although the current digest is empty. *)
Lemma phaseBoundary_on_empty_digest :
  ~ (phaseBoundary "sha256:D1" "" = true
     <-> "" <> "" /\ "" <> "sha256:D1")
  /\ phase_boundaries "" ["sha256:D1"; ""] = [false; true].
Proof.
  split; [| reflexivity].
  intros [Hcode _]. destruct (Hcode eq_refl) as [Hne _]. now apply Hne.
Qed.

(** The verbose run over [two_layers_world] prints one line break, right
    after the third record is decoded. *)
Example Pull_two_layers_line_break :
  let tr := fst (Pull sample_oc [true] two_layers_world) in
  length (filter (fun e => is_line_break e = true) tr) = 1%nat
  /\ nth_error tr 8
     = Some (EvDecode (Decoded (mkPullResponse "sha256:D2" 1 2 "pulling D2")))
  /\ nth_error tr 9 = Some (EvPrint LF []).
Proof. vm_compute. repeat split. Qed.

(** Digest display, lines 106-109. *)
Example shortDigest_of_sha256 :
  shortDigest_of "sha256:abcdef1234567890" = "abcdef12".
Proof. reflexivity. Qed.

Lemma historical_Pull_other_status_witness :
  snd (Historical.Pull sample_oc [] strict_world)
  = Returned ""
      (Some (Errorf "recevied status when downloading: %s" [AStr "success"])).
Proof.
  apply (historical_Pull_other_status sample_oc [] strict_world 200
           [Historical.mkPullResponse "pulling manifest" "" 0;
            Historical.mkPullResponse "downloading 8934d96d3f08"
              "sha256:8934d96d3f08" 100]
           (Historical.mkPullResponse "success" "" 0) []).
  - reflexivity.
  - repeat constructor.
  - intros k _. vm_compute. discriminate.
  - reflexivity.
  - reflexivity.
Defined.

(** * Further properties of the code *)

(** ** The renderer: when it panics and what it draws *)








Lemma append_nil_l (s : string) : "" +:+ s = s.
Proof. reflexivity. Qed.

Lemma append_nil_r (s : string) : s +:+ "" = s.
Proof.
  induction s as [| c s IH]; [reflexivity |].
  exact (f_equal (String c) IH).
Qed.



(** ** The colour switch and the digest display *)

(** X4.  Lines 63-68: once the colours are skipped, every lookup in the palette
    yields the empty string, for the keys it has and for any other. *)
Theorem skip_colors_blank (m : gmap string string) (k : string) :
  index_map (skip_colors m) k = "" /\ dom (skip_colors m) = dom m.
Proof.
  split.
  - unfold index_map, skip_colors. rewrite lookup_fmap.
    destruct (m !! k); reflexivity.
  - unfold skip_colors. apply dom_fmap_L.
Qed.

Lemma length_substring_0 (n : nat) : forall s : string,
  String.length (substring 0 n s) = Nat.min n (String.length s).
Proof.
  induction n as [| n IH]; intros [| c s]; try reflexivity.
  cbn [substring String.length Nat.min]. now rewrite IH.
Qed.

Lemma substring_0_all (s : string) : forall n : nat,
  (String.length s <= n)%nat -> substring 0 n s = s.
Proof.
  induction s as [| c s IH]; intros [| n] Hn; try reflexivity.
  - cbn in Hn. lia.
  - cbn [substring]. rewrite IH; [reflexivity | cbn in Hn; lia].
Qed.

Lemma shortDigest_of_eq (digest : string) :
  shortDigest_of digest = substring 0 8 (TrimPrefix digest "sha256:").
Proof.
  unfold shortDigest_of, len.
  destruct (Z.ltb_spec 8 (Z.of_nat (String.length (TrimPrefix digest "sha256:"))))
    as [Hlong | Hshort]; [reflexivity |].
  symmetry. apply substring_0_all. lia.
Qed.

(** X5.  Lines 106-109: the digest shown is at most 8 bytes long; for a digest
    that starts with "sha256:" it is the first 8 bytes of what follows the
    prefix, and all of it when that is shorter. *)
Theorem shortDigest_of_first_8 (digest hex : string) :
  (String.length (shortDigest_of digest) <= 8)%nat
  /\ shortDigest_of ("sha256:" +:+ hex) = substring 0 8 hex
  /\ ((String.length hex <= 8)%nat -> shortDigest_of ("sha256:" +:+ hex) = hex).
Proof.
  assert (Htrim : TrimPrefix ("sha256:" +:+ hex) "sha256:" = hex).
  { unfold TrimPrefix, HasPrefix.
    change (String.prefix "sha256:" ("sha256:" +:+ hex)) with (String.prefix "" hex).
    replace (String.prefix "" hex) with true by (now destruct hex).
    change (String.length ("sha256:" +:+ hex)) with (7 + String.length hex)%nat.
    change (String.length "sha256:") with 7%nat.
    replace (7 + String.length hex - 7)%nat with (String.length hex) by lia.
    change (substring 7 (String.length hex) ("sha256:" +:+ hex))
      with (substring 0 (String.length hex) hex).
    apply substring_0_all. lia. }
  split; [| split].
  - rewrite shortDigest_of_eq, length_substring_0. lia.
  - now rewrite shortDigest_of_eq, Htrim.
  - intros Hshort. rewrite shortDigest_of_eq, Htrim.
    now apply substring_0_all.
Qed.

Lemma shortDigest_of_first_8_witness :
  shortDigest_of ("sha256:" +:+ "8934d9") = "8934d9".
Proof.
  apply (proj2 (proj2 (shortDigest_of_first_8 "" "8934d9"))).
  vm_compute. repeat constructor.
Defined.

(** ** [Pull] of pull.go: how a call ends *)













(** ** [Pull] of pull.go: what it never does *)

Lemma progress_of_in_order (resp : PullResponse) :
  0 < Total resp -> 0 <= Completed resp <= Total resp ->
  (0 <= progress_of resp <= 100)%Q.
Proof.
  intros Ht [Hc0 Hct]. unfold progress_of, float64_of_int.
  assert (HT : (0 < inject_Z (Total resp))%Q)
    by (rewrite <- (Zlt_Qlt 0); exact Ht).
  assert (HC0 : (0 <= inject_Z (Completed resp))%Q)
    by (rewrite <- (Zle_Qle 0); exact Hc0).
  assert (HCT : (inject_Z (Completed resp) <= inject_Z (Total resp))%Q)
    by (rewrite <- Zle_Qle; exact Hct).
  assert (Hlo : (0 <= inject_Z (Completed resp) / inject_Z (Total resp))%Q).
  { apply Qle_shift_div_l; [exact HT |]. now rewrite Qmult_0_l. }
  assert (Hhi : (inject_Z (Completed resp) / inject_Z (Total resp) <= 1)%Q).
  { apply Qle_shift_div_r; [exact HT |]. now rewrite Qmult_1_l. }
  split; lra.
Qed.

(** A record whose byte counts are in order is displayed without a
    panic, whatever the palette. *)
Lemma in_order_renders (cs : gmap string string) (resp : PullResponse) :
  in_order resp = true -> renders cs resp = true.
Proof.
  unfold in_order, renders. intros Hwf.
  destruct (Z.eqb_spec (Total resp) 0) as [Hz | Hnz]; [reflexivity |].
  cbn [orb] in Hwf |- *. apply andb_true_iff in Hwf.
  destruct Hwf as [Hc0 Hct]. apply Z.leb_le in Hc0, Hct.
  apply bool_decide_eq_true.
  pose proof (progress_of_in_order resp ltac:(lia) ltac:(lia)) as Hp.
  destruct (generateColorizedProgressBar_prefix cs (progress_of resp) 30
              (progressInt_bounds _ 30 Hp ltac:(lia))) as [rest Hsome].
  rewrite Hsome. now eexists.
Qed.

Lemma finish_not_panicked oc verbose since st resp sp :
  snd (finish oc verbose since st resp sp) <> Stop Panicked.
Proof.
  destruct (String.eqb_spec (Status resp) "success") as [Hs | Hs].
  - rewrite (proj1 (finish_success oc verbose since st resp sp Hs)).
    discriminate.
  - rewrite (finish_other oc verbose since st resp sp Hs). cbn [snd].
    destruct (defaultPullTimeout <? _); discriminate.
Qed.

Lemma finish_spinner oc verbose since st resp sp st' :
  snd (finish oc verbose since st resp sp) = Continue st' ->
  spinnerPosition st' = sp.
Proof.
  destruct (String.eqb_spec (Status resp) "success") as [Hs | Hs].
  - rewrite (proj1 (finish_success oc verbose since st resp sp Hs)).
    discriminate.
  - rewrite (finish_other oc verbose since st resp sp Hs). cbn [snd].
    destruct (defaultPullTimeout <? _); [discriminate |].
    intros Heq. injection Heq as Heq. now subst st'.
Qed.

Lemma pull_loop_in_order oc verbose cs since body : forall st,
  0 <= spinnerPosition st ->
  (forall r, In (Decoded r) body -> in_order r = true) ->
  snd (pull_loop oc verbose cs since st body) <> Panicked.
Proof.
  induction body as [| [resp | e] rest IH]; intros st Hsp Hwf.
  - cbn. discriminate.
  - cbn [pull_loop].
    pose proof (iteration_snd oc verbose cs since st resp) as Hit.
    rewrite (display_snd _ _ _ _ _ Hsp) in Hit.
    rewrite (in_order_renders cs resp (Hwf resp (or_introl eq_refl))) in Hit.
    set (sp := if (Total resp =? 0) && verbose
               then spinnerPosition st + 1 else spinnerPosition st) in Hit.
    assert (Hsp' : 0 <= sp) by (unfold sp; destruct (_ && _); lia).
    pose proof (finish_not_panicked oc verbose since st resp sp) as Hnp.
    pose proof (finish_spinner oc verbose since st resp sp) as Hspin.
    destruct (iteration oc verbose cs since st resp) as [tr s].
    cbn [snd] in Hit. rewrite <- Hit in Hnp, Hspin.
    destruct s as [st' | o].
    + specialize (IH st' ltac:(rewrite (Hspin st' eq_refl); exact Hsp')
                    (fun r Hin => Hwf r (or_intror Hin))).
      destruct (pull_loop oc verbose cs since st' rest). exact IH.
    + cbn [snd]. intros ->. now apply Hnp.
  - cbn. discriminate.
Qed.

(** X7.  On a stream whose records all have their byte counts in order (no
    total yet, or 0 <= completed <= total), [Pull] never panics. *)
Theorem Pull_in_order_no_panic oc optionalVerbose w :
  (forall code body r, http_Post w = PostResponse code body ->
                       In (Decoded r) body -> in_order r = true) ->
  snd (Pull oc optionalVerbose w) <> Panicked.
Proof.
  intros Hwf. unfold Pull.
  destruct (http_Post w) as [e | code body] eqn:Hpost; [discriminate |].
  pose proof (pull_loop_in_order oc (verbose_of oc optionalVerbose)
                (if env_NO_COLOR w then skip_colors colors else colors)
                (time_Since w) body (mkLoopState "" 0 "" 0)
                ltac:(cbn; lia) (fun r => Hwf code body r eq_refl)) as Hloop.
  destruct (pull_loop _ _ _ _ _ body). exact Hloop.
Qed.

Lemma Pull_in_order_no_panic_witness :
  snd (Pull sample_oc [true] success_world) <> Panicked.
Proof.
  apply (Pull_in_order_no_panic sample_oc [true] success_world).
  intros code body r Hpost Hin. injection Hpost as _ <-.
  repeat (destruct Hin as [Hin | Hin];
          [injection Hin as <-; reflexivity |]).
  destruct Hin.
Defined.

Lemma iteration_no_error oc verbose cs since st resp text :
  snd (iteration oc verbose cs since st resp) = Stop (Returned text None) ->
  Status resp = "success".
Proof.
  rewrite iteration_snd.
  destruct (snd (display oc verbose cs (spinnerPosition st) resp))
    as [sp | o] eqn:Hd.
  - destruct (String.eqb_spec (Status resp) "success") as [Hs | Hs];
      [intros _; exact Hs |].
    rewrite (finish_other oc verbose since st resp sp Hs). cbn [snd].
    destruct (defaultPullTimeout <? _); discriminate.
  - rewrite (display_stop _ _ _ _ _ _ Hd). discriminate.
Qed.

Lemma pull_loop_no_error oc verbose cs since body : forall st text,
  snd (pull_loop oc verbose cs since st body) = Returned text None ->
  Exists (fun e => is_success_decode e = true)
    (fst (pull_loop oc verbose cs since st body)).
Proof.
  induction body as [| [resp | e] rest IH]; intros st text Hret.
  - cbn in Hret. discriminate Hret.
  - cbn [pull_loop] in Hret |- *.
    pose proof (iteration_no_error oc verbose cs since st resp) as Hit.
    destruct (iteration oc verbose cs since st resp) as [tr [st' | o]].
    + specialize (IH st' text).
      destruct (pull_loop oc verbose cs since st' rest) as [tr' o'].
      cbn [fst snd] in *. apply Exists_cons_tl, Exists_app. right.
      exact (IH Hret).
    + cbn [fst snd] in *. subst o. apply Exists_cons_hd.
      cbn [is_success_decode]. rewrite (Hit text eq_refl). reflexivity.
  - cbn in Hret. discriminate Hret.
Qed.

(** X11.  [Pull] returns without an error only when it has decoded a record
    whose status is "success". *)
Theorem Pull_no_error_only_on_success oc optionalVerbose w text :
  snd (Pull oc optionalVerbose w) = Returned text None ->
  Exists (fun e => is_success_decode e = true)
    (fst (Pull oc optionalVerbose w)).
Proof.
  unfold Pull. destruct (http_Post w) as [e | code body];
    [cbn [snd]; discriminate |].
  pose proof (pull_loop_no_error oc (verbose_of oc optionalVerbose)
                (if env_NO_COLOR w then skip_colors colors else colors)
                (time_Since w) body (mkLoopState "" 0 "" 0) text) as Hloop.
  destruct (pull_loop _ _ _ _ _ body) as [tr o]. cbn [fst snd] in *.
  intros Hret. apply Exists_app. right. apply Exists_cons_tl, Exists_app.
  left. exact (Hloop Hret).
Qed.

Lemma Pull_no_error_only_on_success_witness :
  Exists (fun e => is_success_decode e = true)
    (fst (Pull sample_oc [] late_world)).
Proof.
  apply (Pull_no_error_only_on_success sample_oc [] late_world "").
  reflexivity.
Defined.

Lemma display_silent oc cs sp resp :
  fst (display oc false cs sp resp) = [].
Proof.
  unfold display, bind, when, emit, ret, stop, orPanic.
  destruct (Total resp =? 0); [reflexivity |].
  destruct (generateColorizedProgressBar _ _ _); reflexivity.
Qed.

Lemma finish_silent oc since st resp sp :
  Forall (fun e => is_print e = false) (fst (finish oc false since st resp sp)).
Proof.
  unfold finish, bind, when, emit, ret, stop.
  destruct (String.eqb (Status resp) "success"); [constructor |].
  destruct (defaultPullTimeout <? _); repeat constructor.
Qed.

Lemma pull_loop_silent oc cs since body : forall st,
  Forall (fun e => is_print e = false)
    (fst (pull_loop oc false cs since st body)).
Proof.
  induction body as [| [resp | e] rest IH]; intros st.
  - repeat constructor.
  - cbn [pull_loop].
    pose proof (iteration_fst oc false cs since st resp) as Hfst.
    rewrite andb_false_r, display_silent in Hfst. cbn [app] in Hfst.
    destruct (iteration oc false cs since st resp) as [tr s] eqn:Hit.
    assert (Htr : Forall (fun e => is_print e = false) tr).
    { cbn [fst] in Hfst. rewrite Hfst.
      destruct (snd (display _ _ _ _ _)); [apply finish_silent | constructor]. }
    destruct s as [st' | o].
    + specialize (IH st').
      destruct (pull_loop oc false cs since st' rest) as [tr' o'].
      cbn [fst] in *. constructor; [reflexivity |].
      apply Forall_app. split; assumption.
    + cbn [fst]. constructor; [reflexivity | exact Htr].
  - repeat constructor.
Qed.

(** X12.  When neither the configuration nor the optional argument asks for
    verbosity, [Pull] prints nothing. *)
Theorem Pull_silent oc optionalVerbose w :
  verbose_of oc optionalVerbose = false ->
  Forall (fun e => is_print e = false) (fst (Pull oc optionalVerbose w)).
Proof.
  intros Hv. unfold Pull. rewrite Hv.
  destruct (http_Post w) as [e | code body]; [repeat constructor |].
  pose proof (pull_loop_silent oc
                (if env_NO_COLOR w then skip_colors colors else colors)
                (time_Since w) body (mkLoopState "" 0 "" 0)) as Hloop.
  destruct (pull_loop _ _ _ _ _ body) as [tr o]. cbn [fst app] in *.
  constructor; [reflexivity |]. apply Forall_app. split; [exact Hloop |].
  repeat constructor.
Qed.

Lemma Pull_silent_witness :
  Forall (fun e => is_print e = false) (fst (Pull sample_oc [false] success_world)).
Proof.
  apply (Pull_silent sample_oc [false] success_world). reflexivity.
Defined.

(** ** Which records make the display panic *)






(** ** The strict [Pull] of part_000: decode errors and the timeout *)

(** X13.  In the strict [Pull] a decode error, or the end of the stream, after
    records that all carried an expected prefix is not reported: the loop
    is left and [Pull] returns the text written so far with a nil error. *)
Theorem historical_Pull_swallows_stream_error
    oc optionalVerbose (w : World Historical.PullResponse) code pre tail :
  http_Post w = PostResponse code (map Decoded pre ++ tail) ->
  Forall (fun r => HasPrefix (Historical.Status r) "downloading "
                   || HasPrefix (Historical.Status r) "pulling " = true) pre ->
  (forall k, (k < length pre)%nat -> time_Since w k <= PullTimeout oc) ->
  tail = [] \/ (exists e rest, tail = DecodeFails e :: rest) ->
  snd (Historical.Pull oc optionalVerbose w) = Returned (written "" pre) None.
Proof.
  intros Hpost Hpre Hclock Htail. unfold Historical.Pull. rewrite Hpost.
  pose proof (historical_pull_loop_through oc (verbose_of oc optionalVerbose)
                (time_Since w) pre tail
                (Historical.mkLoopState "" false 0) Hpre Hclock) as Hloop.
  destruct (Historical.pull_loop oc _ _ _ (map Decoded pre ++ tail)) as [tr o].
  cbn [snd] in Hloop |- *. rewrite Hloop.
  destruct Htail as [-> | (e & rest & ->)];
    cbn; destruct (verbose_of oc optionalVerbose); reflexivity.
Qed.

Lemma historical_Pull_swallows_stream_error_witness :
  snd (Historical.Pull sample_oc []
         (mkWorld false
            (PostResponse 200
               [Decoded (Historical.mkPullResponse "pulling manifest" "" 0);
                DecodeFails (LibError "unexpected EOF")])
            (fun _ => 0)))
  = Returned "pulling manifest" None.
Proof.
  apply (historical_Pull_swallows_stream_error sample_oc [] _ 200
           [Historical.mkPullResponse "pulling manifest" "" 0]
           [DecodeFails (LibError "unexpected EOF")]).
  - reflexivity.
  - repeat constructor.
  - intros k _. vm_compute. discriminate.
  - right. eexists _, _. reflexivity.
Defined.

(** X14.  In the strict [Pull] a record with an expected prefix that is reached
    when more than the configured [PullTimeout] has gone by ends the call:
    the text written so far, this status included, and an error that names
    the configured duration (and not the model). *)
Theorem historical_Pull_times_out
    oc optionalVerbose (w : World Historical.PullResponse)
    code pre pullResp rest :
  http_Post w = PostResponse code (map Decoded pre ++ Decoded pullResp :: rest) ->
  Forall (fun r => HasPrefix (Historical.Status r) "downloading "
                   || HasPrefix (Historical.Status r) "pulling " = true) pre ->
  (forall k, (k < length pre)%nat -> time_Since w k <= PullTimeout oc) ->
  HasPrefix (Historical.Status pullResp) "downloading "
  || HasPrefix (Historical.Status pullResp) "pulling " = true ->
  PullTimeout oc < time_Since w (length pre) ->
  snd (Historical.Pull oc optionalVerbose w)
  = Returned (written "" pre +:+ Historical.Status pullResp)
      (Some (Errorf "pull timed out after %v" [ADuration (PullTimeout oc)])).
Proof.
  intros Hpost Hpre Hclock Hprefix Hlate. unfold Historical.Pull. rewrite Hpost.
  pose proof (historical_pull_loop_through oc (verbose_of oc optionalVerbose)
                (time_Since w) pre (Decoded pullResp :: rest)
                (Historical.mkLoopState "" false 0) Hpre Hclock) as Hloop.
  destruct (Historical.pull_loop oc _ _ _ (map Decoded pre ++ _)) as [tr o].
  cbn [snd] in Hloop |- *. rewrite Hloop. clear Hloop.
  cbn [Historical.pull_loop Historical.sb Historical.gotUnusualStatus
       Historical.sinceCalls].
  match goal with
  | |- context [Historical.iteration ?a ?b ?c ?d ?e] =>
      pose proof (historical_iteration_snd a b c d e) as Hit;
      destruct (Historical.iteration a b c d e) as [tr' s]
  end.
  cbv zeta in Hit.
  assert (Hboth : negb (HasPrefix (Historical.Status pullResp) "downloading ")
                  && negb (HasPrefix (Historical.Status pullResp) "pulling ")
                  = false).
  { destruct (HasPrefix _ "downloading "), (HasPrefix _ "pulling ");
      try reflexivity; discriminate Hprefix. }
  rewrite Hboth in Hit.
  cbn [Historical.sb Historical.sinceCalls Nat.add] in Hit.
  apply Z.ltb_lt in Hlate. rewrite Hlate in Hit.
  cbn [snd] in Hit. now subst s.
Qed.

Lemma historical_Pull_times_out_witness :
  snd (Historical.Pull sample_oc []
         (mkWorld false
            (PostResponse 200
               [Decoded (Historical.mkPullResponse "pulling manifest" "" 0)])
            (fun _ => 2 * Hour)))
  = Returned "pulling manifest"
      (Some (Errorf "pull timed out after %v" [ADuration (1 * Hour)])).
Proof.
  apply (historical_Pull_times_out sample_oc [] _ 200 []
           (Historical.mkPullResponse "pulling manifest" "" 0) []).
  - reflexivity.
  - constructor.
  - intros k Hk. cbn in Hk. lia.
  - reflexivity.
  - vm_compute. reflexivity.
Defined.

(** ** [GetOutput] *)

Lemma generate_loop_through pre tail : forall sb,
  Forall (fun r => Generate.Done r = false) pre ->
  Generate.generate_loop sb (map Decoded pre ++ tail)
  = (map (fun r => EvDecode (Decoded r)) pre
       ++ fst (Generate.generate_loop
                 (sb +:+ foldr append "" (map Generate.Response pre)) tail),
     snd (Generate.generate_loop
            (sb +:+ foldr append "" (map Generate.Response pre)) tail)).
Proof.
  induction pre as [| r pre IH]; intros sb Hpre.
  - cbn [map app foldr]. rewrite append_nil_r.
    now destruct (Generate.generate_loop sb tail).
  - inversion Hpre as [| r' pre' Hr Hpre']; subst.
    cbn [map app foldr Generate.generate_loop]. rewrite Hr.
    rewrite (IH _ Hpre'), <- append_assoc. reflexivity.
Qed.

(** X15.  [GetOutput] returns the responses of the records up to the first one
    that is done, joined in order (trimmed when the optional argument says
    so), and a nil error; it decodes nothing after that record. *)
Theorem GetOutput_until_done
    (TrimSpace : string -> string) oc prompt
    (w : World Generate.GenerateResponse) code pre last rest :
  http_Post w = PostResponse code (map Decoded pre ++ Decoded last :: rest) ->
  Forall (fun r => Generate.Done r = false) pre ->
  Generate.Done last = true ->
  let out := foldr append "" (map Generate.Response (pre ++ [last])) in
  snd (Generate.GetOutput TrimSpace oc prompt [] w) = (out, None)
  /\ snd (Generate.GetOutput TrimSpace oc prompt [true] w)
     = (TrimSpace out, None)
  /\ filter (fun e => is_decode e = true)
       (fst (Generate.GetOutput TrimSpace oc prompt [] w))
     = map (fun r => EvDecode (Decoded r)) (pre ++ [last]).
Proof.
  intros Hpost Hpre Hlast out. unfold Generate.GetOutput. rewrite Hpost.
  rewrite (generate_loop_through pre (Decoded last :: rest) "" Hpre).
  cbn [Generate.generate_loop]. rewrite Hlast. cbn [fst snd].
  assert (Hout : ("" +:+ foldr append "" (map Generate.Response pre))
                 +:+ Generate.Response last = out).
  { unfold out. rewrite append_nil_l, map_app, foldr_app. cbn [map foldr].
    rewrite append_nil_r. generalize (map Generate.Response pre) as l.
    induction l as [| x l IH]; [reflexivity |].
    cbn [foldr]. now rewrite append_assoc, IH. }
  rewrite Hout. split; [reflexivity | split; [reflexivity |]].
  rewrite filter_app. cbn [filter].
  replace (filter _ (if Verbose oc then _ else _)) with (@nil (event Generate.GenerateResponse))
    by (destruct (Verbose oc); reflexivity).
  cbn [app]. rewrite filter_cons_False by (cbn; discriminate).
  rewrite !filter_app, map_app. cbn [map].
  rewrite (filter_cons_True _ (EvDecode (Decoded last))) by reflexivity.
  rewrite (filter_cons_False _ EvClose) by (cbn; discriminate).
  rewrite filter_nil, app_nil_r. f_equal.
  clear. induction pre as [| r pre IH]; [reflexivity |].
  cbn [map]. rewrite filter_cons_True by reflexivity. now rewrite IH.
Qed.

Lemma GetOutput_until_done_witness :
  snd (Generate.GetOutput (fun s => s) sample_oc "Why is the sky blue?" []
         (mkWorld false
            (PostResponse 200
               [Decoded (Generate.mkGenerateResponse "llama2" "" "Ray" false
                           [] 0 0 0 0 0 0 0 0);
                Decoded (Generate.mkGenerateResponse "llama2" "" "leigh" true
                           [] 0 0 0 0 0 0 0 0);
                Decoded (Generate.mkGenerateResponse "llama2" "" "!" true
                           [] 0 0 0 0 0 0 0 0)])
            (fun _ => 0)))
  = ("Rayleigh", None).
Proof.
  apply (GetOutput_until_done (fun s => s) sample_oc "Why is the sky blue?"
           _ 200
           [Generate.mkGenerateResponse "llama2" "" "Ray" false
              [] 0 0 0 0 0 0 0 0]
           (Generate.mkGenerateResponse "llama2" "" "leigh" true
              [] 0 0 0 0 0 0 0 0)
           [Decoded (Generate.mkGenerateResponse "llama2" "" "!" true
                       [] 0 0 0 0 0 0 0 0)]).
  - reflexivity.
  - repeat constructor.
  - reflexivity.
Defined.

(** X16.  When the stream fails to decode, or ends, before any record is done,
    [GetOutput] does not report it: it returns the responses joined so
    far and a nil error. *)
Theorem GetOutput_swallows_stream_error
    (TrimSpace : string -> string) oc prompt
    (w : World Generate.GenerateResponse) code pre tail :
  http_Post w = PostResponse code (map Decoded pre ++ tail) ->
  Forall (fun r => Generate.Done r = false) pre ->
  tail = [] \/ (exists e rest, tail = DecodeFails e :: rest) ->
  snd (Generate.GetOutput TrimSpace oc prompt [] w)
  = (foldr append "" (map Generate.Response pre), None).
Proof.
  intros Hpost Hpre Htail. unfold Generate.GetOutput. rewrite Hpost.
  rewrite (generate_loop_through pre tail "" Hpre), append_nil_l.
  destruct Htail as [-> | (e & rest & ->)]; reflexivity.
Qed.

Lemma GetOutput_swallows_stream_error_witness :
  snd (Generate.GetOutput (fun s => s) sample_oc "Why is the sky blue?" []
         (mkWorld false
            (PostResponse 200
               [Decoded (Generate.mkGenerateResponse "llama2" "" "Ray" false
                           [] 0 0 0 0 0 0 0 0);
                DecodeFails (LibError "unexpected EOF")])
            (fun _ => 0)))
  = ("Ray", None).
Proof.
  apply (GetOutput_swallows_stream_error (fun s => s) sample_oc
           "Why is the sky blue?" _ 200
           [Generate.mkGenerateResponse "llama2" "" "Ray" false
              [] 0 0 0 0 0 0 0 0]
           [DecodeFails (LibError "unexpected EOF")]).
  - reflexivity.
  - repeat constructor.
  - right. eexists _, _. reflexivity.
Defined.

(** ** [List], [SizeOf], [Has] *)

Lemma collect_spec models : forall names modifiedMap sizeMap,
  let '(names', modifiedMap', sizeMap') :=
    Tags.collect models names modifiedMap sizeMap in
  names' = names ++ map Tags.Name models
  /\ (forall n,
        modifiedMap' !! n
        = match last (filter (fun m => Tags.Name m = n) models) with
          | Some m => Some (Tags.Modified m)
          | None => modifiedMap !! n
          end)
  /\ (forall n,
        sizeMap' !! n
        = match last (filter (fun m => Tags.Name m = n) models) with
          | Some m => Some (Tags.Size m)
          | None => sizeMap !! n
          end).
Proof.
  induction models as [| m models IH]; intros names modifiedMap sizeMap.
  - cbn. rewrite app_nil_r. auto.
  - cbn [Tags.collect].
    specialize (IH (names ++ [Tags.Name m])
                  (<[Tags.Name m := Tags.Modified m]> modifiedMap)
                  (<[Tags.Name m := Tags.Size m]> sizeMap)).
    destruct (Tags.collect models _ _ _) as [[names' modifiedMap'] sizeMap'].
    destruct IH as (Hnames & Hmod & Hsize). split; [| split].
    + rewrite Hnames, <- app_assoc. reflexivity.
    + intros n. rewrite Hmod.
      destruct (decide (Tags.Name m = n)) as [Heq | Hne].
      * rewrite filter_cons_True by exact Heq.
        destruct (filter _ models) as [| m' l] eqn:Hf.
        -- cbn. now rewrite Heq, lookup_insert_eq.
        -- rewrite last_cons_cons.
           destruct (last (m' :: l)) eqn:Hl; [reflexivity |].
           apply last_None in Hl. discriminate Hl.
      * rewrite filter_cons_False by exact Hne.
        destruct (last (filter _ models)); [reflexivity |].
        now rewrite lookup_insert_ne.
    + intros n. rewrite Hsize.
      destruct (decide (Tags.Name m = n)) as [Heq | Hne].
      * rewrite filter_cons_True by exact Heq.
        destruct (filter _ models) as [| m' l] eqn:Hf.
        -- cbn. now rewrite Heq, lookup_insert_eq.
        -- rewrite last_cons_cons.
           destruct (last (m' :: l)) eqn:Hl; [reflexivity |].
           apply last_None in Hl. discriminate Hl.
      * rewrite filter_cons_False by exact Hne.
        destruct (last (filter _ models)); [reflexivity |].
        now rewrite lookup_insert_ne.
Qed.

Lemma List_ok oc code (listResp : Tags.ListResponse) :
  exists tr modifiedMap sizeMap,
    Tags.List oc (Tags.GetResponse code (Decoded listResp))
    = (tr, (map Tags.Name (Tags.Models listResp), modifiedMap, sizeMap, None))
    /\ forall n,
         modifiedMap !! n
         = Tags.Modified
             <$> last (filter (fun m => Tags.Name m = n) (Tags.Models listResp))
         /\ sizeMap !! n
            = Tags.Size
                <$> last (filter (fun m => Tags.Name m = n)
                            (Tags.Models listResp)).
Proof.
  unfold Tags.List.
  pose proof (collect_spec (Tags.Models listResp) [] ∅ ∅) as Hc.
  destruct (Tags.collect _ _ _ _) as [[names modifiedMap] sizeMap].
  destruct Hc as (Hnames & Hmod & Hsize). cbn [app] in Hnames. subst names.
  eexists _, modifiedMap, sizeMap. split; [reflexivity |].
  intros n. rewrite Hmod, Hsize.
  destruct (last _); cbn; rewrite ?lookup_empty; auto.
Qed.

(** X17.  When the listing succeeds, [List] returns the names in the order of
    the answer, duplicates kept, and maps that hold, for each name, the
    modification time and the size of the last entry with that name. *)
Theorem List_last_entry_wins oc code (listResp : Tags.ListResponse) :
  let '(names, modifiedMap, sizeMap, err) :=
    snd (Tags.List oc (Tags.GetResponse code (Decoded listResp))) in
  err = None
  /\ names = map Tags.Name (Tags.Models listResp)
  /\ forall n,
       modifiedMap !! n
       = Tags.Modified
           <$> last (filter (fun m => Tags.Name m = n) (Tags.Models listResp))
       /\ sizeMap !! n
          = Tags.Size
              <$> last (filter (fun m => Tags.Name m = n) (Tags.Models listResp)).
Proof.
  destruct (List_ok oc code listResp)
    as (tr & modifiedMap & sizeMap & Hlist & Hmaps).
  rewrite Hlist. cbn [snd]. auto.
Qed.

Lemma name_in_In (model : string) (names : list string) :
  Tags.name_in model names = true <-> In model names.
Proof.
  induction names as [| name names IH]; cbn [Tags.name_in In].
  - split; [discriminate | tauto].
  - destruct (String.eqb_spec name model) as [Heq | Hne].
    + split; auto.
    + rewrite IH. split; [auto | intros [Heq | Hin]; [contradiction | exact Hin]].
Qed.

Lemma size_at_Some (model : string) (sizeMap : gmap string Z)
    (names : list string) :
  In model names ->
  Tags.size_at model sizeMap names = Some (Tags.index_size sizeMap model).
Proof.
  induction names as [| name names IH]; cbn [Tags.size_at In]; [tauto |].
  intros Hin. destruct (String.eqb_spec name model) as [Heq | Hne].
  - now rewrite Heq.
  - destruct Hin as [Heq | Hin]; [contradiction | exact (IH Hin)].
Qed.

Lemma size_at_None (model : string) (sizeMap : gmap string Z)
    (names : list string) :
  ~ In model names -> Tags.size_at model sizeMap names = None.
Proof.
  induction names as [| name names IH]; cbn [Tags.size_at In]; [reflexivity |].
  intros Hnin. destruct (String.eqb_spec name model) as [Heq | Hne].
  - exfalso. apply Hnin. now left.
  - apply IH. intros Hin. apply Hnin. now right.
Qed.

Lemma List_names oc code (listResp : Tags.ListResponse) :
  exists tr modifiedMap sizeMap,
    Tags.List oc (Tags.GetResponse code (Decoded listResp))
    = (tr, (map Tags.Name (Tags.Models listResp), modifiedMap, sizeMap, None))
    /\ forall n,
         sizeMap !! n
         = Tags.Size
             <$> last (filter (fun m => Tags.Name m = n) (Tags.Models listResp)).
Proof.
  destruct (List_ok oc code listResp)
    as (tr & modifiedMap & sizeMap & Hlist & Hmaps).
  exists tr, modifiedMap, sizeMap. split; [exact Hlist |].
  intros n. apply Hmaps.
Qed.

(** X18.  [Has] answers true exactly when the listing succeeds and one of the
    listed names equals the name looked up: the trimmed model name, with
    ":latest" appended when it holds no colon. *)
Theorem Has_iff_listed (TrimSpace : string -> string) oc model
    (get : Tags.GetResult) :
  snd (Tags.Has TrimSpace oc model get) = true
  <-> exists code listResp,
        get = Tags.GetResponse code (Decoded listResp)
        /\ In (Tags.tagged TrimSpace model)
             (map Tags.Name (Tags.Models listResp)).
Proof.
  unfold Tags.Has.
  destruct get as [e | code [listResp | e]].
  - cbn. split; [discriminate | intros (c & l & Heq & _); discriminate Heq].
  - destruct (List_names oc code listResp)
      as (tr & modifiedMap & sizeMap & Hlist & _).
    rewrite Hlist. cbn [snd]. rewrite name_in_In. split.
    + intros Hin. now exists code, listResp.
    + intros (c & l & Heq & Hin). injection Heq as _ <-. exact Hin.
  - cbn. split; [discriminate | intros (c & l & Heq & _); discriminate Heq].
Qed.

(** X19.  What [SizeOf] returns: on a listing that fails, 0 and the error of the
    listing; on a name that is listed, the size of the last entry with that
    name and no error; otherwise -1 and an error that carries the name
    looked up. *)
Theorem SizeOf_cases (TrimSpace : string -> string) oc model
    (get : Tags.GetResult) :
  let name := Tags.tagged TrimSpace model in
  match get with
  | Tags.GetError err | Tags.GetResponse _ (DecodeFails err) =>
      snd (Tags.SizeOf TrimSpace oc model get) = (0, Some err)
  | Tags.GetResponse _ (Decoded listResp) =>
      match last (filter (fun m => Tags.Name m = name) (Tags.Models listResp))
      with
      | Some m =>
          snd (Tags.SizeOf TrimSpace oc model get) = (Tags.Size m, None)
      | None =>
          snd (Tags.SizeOf TrimSpace oc model get)
          = (-1, Some (errors_New ("could not find model: " +:+ name)))
      end
  end.
Proof.
  intros name. unfold Tags.SizeOf. fold name.
  destruct get as [e | code [listResp | e]]; [reflexivity | | reflexivity].
  destruct (List_names oc code listResp)
    as (tr & modifiedMap & sizeMap & Hlist & Hsize).
  rewrite Hlist.
  destruct (last (filter _ (Tags.Models listResp))) as [m |] eqn:Hlast.
  - assert (Hin : In name (map Tags.Name (Tags.Models listResp))).
    { apply last_Some_elem_of, list_elem_of_filter in Hlast.
      destruct Hlast as [Hname Hm]. apply list_elem_of_In in Hm.
      rewrite <- Hname. now apply in_map. }
    rewrite (size_at_Some name sizeMap _ Hin). cbn [snd].
    unfold Tags.index_size. now rewrite Hsize, Hlast.
  - assert (Hnin : ~ In name (map Tags.Name (Tags.Models listResp))).
    { intros Hin. apply in_map_iff in Hin. destruct Hin as (m & Hname & Hm).
      apply last_None in Hlast.
      assert (Hel : m ∈ filter (fun m => Tags.Name m = name)
                        (Tags.Models listResp)).
      { apply list_elem_of_filter. split; [exact Hname |].
        now apply list_elem_of_In. }
      rewrite Hlast in Hel. now apply not_elem_of_nil in Hel. }
    now rewrite (size_at_None name sizeMap _ Hnin).
Qed.

(** X20.  [SizeOf] returns no error exactly when [Has] answers true, on the same
    answer of the server. *)
Theorem SizeOf_ok_iff_Has (TrimSpace : string -> string) oc model
    (get : Tags.GetResult) :
  snd (snd (Tags.SizeOf TrimSpace oc model get)) = None
  <-> snd (Tags.Has TrimSpace oc model get) = true.
Proof.
  unfold Tags.SizeOf, Tags.Has.
  destruct get as [e | code [listResp | e]];
    [cbn; split; discriminate | | cbn; split; discriminate].
  destruct (List_names oc code listResp)
    as (tr & modifiedMap & sizeMap & Hlist & _).
  rewrite Hlist. cbn [snd]. rewrite name_in_In.
  set (name := Tags.tagged TrimSpace model).
  destruct (in_dec String.eq_dec name (map Tags.Name (Tags.Models listResp)))
    as [Hin | Hnin].
  - rewrite (size_at_Some name sizeMap _ Hin). cbn. tauto.
  - rewrite (size_at_None name sizeMap _ Hnin). cbn.
    split; [discriminate | contradiction].
Qed.

Lemma Contains_app_r (a b substr : string) :
  Contains b substr = true -> Contains (a +:+ b) substr = true.
Proof.
  intros Hb. induction a as [| c a IH]; [exact Hb |].
  change (String c a +:+ b) with (String c (a +:+ b)).
  cbn [Contains]. rewrite IH. apply orb_true_r.
Qed.

(** X21.  A model name without a colon and the same name followed by ":latest"
    are one lookup, as long as trimming leaves both as they are. *)
Theorem Has_latest (TrimSpace : string -> string) oc model
    (get : Tags.GetResult) :
  TrimSpace model = model ->
  TrimSpace (model +:+ ":latest") = model +:+ ":latest" ->
  Contains model ":" = false ->
  Tags.Has TrimSpace oc model get
  = Tags.Has TrimSpace oc (model +:+ ":latest") get
  /\ Tags.SizeOf TrimSpace oc model get
     = Tags.SizeOf TrimSpace oc (model +:+ ":latest") get.
Proof.
  intros Hm Hl Hc.
  assert (Htag : Tags.tagged TrimSpace model
                 = Tags.tagged TrimSpace (model +:+ ":latest")).
  { unfold Tags.tagged. rewrite Hm, Hl, Hc.
    rewrite (Contains_app_r model ":latest" ":" eq_refl). reflexivity. }
  unfold Tags.Has, Tags.SizeOf. now rewrite Htag.
Qed.

Lemma Has_latest_witness :
  Tags.Has (fun s => s) sample_oc "llama2"
    (Tags.GetResponse 200
       (Decoded (Tags.mkListResponse
                   [Tags.mkModelInfo "llama2:latest" 0 3825819519 "sha256:78e2"])))
  = Tags.Has (fun s => s) sample_oc "llama2:latest"
      (Tags.GetResponse 200
         (Decoded (Tags.mkListResponse
                     [Tags.mkModelInfo "llama2:latest" 0 3825819519 "sha256:78e2"]))).
Proof.
  apply (Has_latest (fun s => s) sample_oc "llama2"); reflexivity.
Defined.

(** ** [PullIfNeeded] *)

Lemma historical_pull_loop_returns oc verbose since body : forall st,
  exists text err,
    snd (Historical.pull_loop oc verbose since st body) = Returned text err.
Proof.
  induction body as [| [pullResp | e] rest IH]; intros st.
  - cbn. eexists _, _. reflexivity.
  - cbn [Historical.pull_loop].
    pose proof (historical_iteration_snd oc verbose since st pullResp) as Hit.
    cbv zeta in Hit.
    destruct (Historical.iteration oc verbose since st pullResp) as [tr s].
    cbn [snd] in Hit. subst s.
    destruct (negb _ && negb _).
    + destruct (HasPrefix _ "verifying "); eexists _, _; reflexivity.
    + destruct (PullTimeout oc <? _); [eexists _, _; reflexivity |].
      match goal with
      | |- context [Historical.pull_loop oc verbose since ?s rest] =>
          destruct (IH s) as (text & err & Hloop);
          destruct (Historical.pull_loop oc verbose since s rest)
      end.
      cbn [snd] in Hloop |- *. now exists text, err.
  - cbn. eexists _, _. reflexivity.
Qed.

Lemma historical_Pull_returns oc optionalVerbose w :
  exists text err, snd (Historical.Pull oc optionalVerbose w) = Returned text err.
Proof.
  unfold Historical.Pull.
  destruct (http_Post w) as [e | code body]; [eexists _, _; reflexivity |].
  destruct (historical_pull_loop_returns oc (verbose_of oc optionalVerbose)
              (time_Since w) body (Historical.mkLoopState "" false 0))
    as (text & err & Hloop).
  destruct (Historical.pull_loop _ _ _ _ body). cbn [snd] in *.
  now exists text, err.
Qed.

(** X22.  [PullIfNeeded] pulls exactly when the configured model is not found
    in a successful listing -- it is not listed, or the listing failed.
    When the model is listed it returns nil without any request to the pull
    endpoint; otherwise it runs [Pull] and returns its error.  It never
    panics. *)
Theorem PullIfNeeded_cases (TrimSpace : string -> string) oc optionalVerbose
    (get : Tags.GetResult) (w : World Historical.PullResponse) :
  let listed :=
    exists code listResp,
      get = Tags.GetResponse code (Decoded listResp)
      /\ In (Tags.tagged TrimSpace (Model oc))
           (map Tags.Name (Tags.Models listResp)) in
  let '(tr, pulled, result) :=
    Tags.PullIfNeeded TrimSpace oc optionalVerbose get w in
  (listed -> pulled = [] /\ result = Returns None)
  /\ (~ listed ->
      pulled = fst (Historical.Pull oc optionalVerbose w)
      /\ exists text err,
           snd (Historical.Pull oc optionalVerbose w) = Returned text err
           /\ result = Returns err).
Proof.
  intros listed.
  assert (Hhas : snd (Tags.Has TrimSpace oc (Model oc) get) = true <-> listed).
  { unfold Tags.Has, listed.
    destruct get as [e | code [listResp | e]];
      try (cbn; split;
           [discriminate | intros (c & l & Heq & _); discriminate Heq]).
    destruct (List_names oc code listResp)
      as (tr & modifiedMap & sizeMap & Hlist & _).
    rewrite Hlist. cbn [snd]. rewrite name_in_In. split.
    - intros Hin. now exists code, listResp.
    - intros (c & l & Heq & Hin). injection Heq as _ <-. exact Hin. }
  unfold Tags.PullIfNeeded, Tags.HasModel.
  destruct (Tags.Has TrimSpace oc (Model oc) get) as [tr has].
  cbn [snd] in Hhas. destruct has; cbn [negb].
  - split; [auto |]. intros Hnot. exfalso. apply Hnot, Hhas. reflexivity.
  - destruct (historical_Pull_returns oc optionalVerbose w)
      as (text & err & Hpull).
    destruct (Historical.Pull oc optionalVerbose w) as [tr' o].
    cbn [fst snd] in *. subst o.
    destruct err; (split;
      [intros Hl; apply Hhas in Hl; discriminate Hl
      | intros _; split; [reflexivity |]; eexists _, _; split; reflexivity]).
Qed.

Lemma PullIfNeeded_cases_witness :
  snd (fst (Tags.PullIfNeeded (fun s => s) sample_oc []
              (Tags.GetResponse 200
                 (Decoded (Tags.mkListResponse
                             [Tags.mkModelInfo "llama2:latest" 0 3825819519
                                "sha256:78e2"])))
              strict_world)) = []
  /\ snd (Tags.PullIfNeeded (fun s => s) sample_oc []
            (Tags.GetResponse 200
               (Decoded (Tags.mkListResponse
                           [Tags.mkModelInfo "llama2:latest" 0 3825819519
                              "sha256:78e2"])))
            strict_world) = Returns None.
Proof.
  pose proof (PullIfNeeded_cases (fun s => s) sample_oc []
                (Tags.GetResponse 200
                   (Decoded (Tags.mkListResponse
                               [Tags.mkModelInfo "llama2:latest" 0 3825819519
                                  "sha256:78e2"])))
                strict_world) as H.
  cbv zeta in H.
  destruct (Tags.PullIfNeeded _ _ _ _ _) as [[tr pulled] result].
  apply (proj1 H). eexists _, _. split; [reflexivity |]. now left.
Defined.

(** X23.  Whatever the configuration and the world, [Pull] of pull.go
    either panics or returns the empty text: its builder is never written
    to. *)
Theorem Pull_returns_no_text oc optionalVerbose (w : World PullResponse) :
  snd (Pull oc optionalVerbose w) = Panicked
  \/ exists err, snd (Pull oc optionalVerbose w) = Returned "" err.
Proof.
  destruct (snd (Pull oc optionalVerbose w)) as [text err |] eqn:Hpull;
    [right | now left].
  rewrite (Pull_text_empty oc optionalVerbose w text err Hpull).
  now exists err.
Qed.
